(** * Shallow embedding of testcenter/stc_port.py (StcPort, StcGenerator, StcLag)

    The remote STC session is modelled as a world threaded through a small
    state-and-exception monad.  Remote calls are recorded, in order, in an
    event log; the values of remote attributes come from an oracle indexed by
    the number of seconds elapsed (each [time.sleep(1)] advances the clock),
    overridden by the attributes this client has written. *)

From Stdlib Require Import ZArith Lia Ascii String List Bool.
From stdpp Require Import base gmap strings list pretty.
Import ListNotations.
Open Scope string_scope.
Open Scope list_scope.
#[local] Arguments String.append : simpl nomatch.

Definition ref := string.
Definition attr := string.

(** Values passed as named arguments of [api.perform]. *)
Inductive value :=
| VStr (s : string)
| VBool (b : bool).

(** Remote calls and blocking waits, in the order the code issues them. *)
Inductive event :=
| EvGet (r : ref) (a : attr)                   (* api.get(ref, attr) *)
| EvGetAll (r : ref)                           (* get_attributes() *)
| EvConfig (r : ref) (kvs : list (attr * string)) (* api.config(ref, **kvs) *)
| EvAppend (r : ref) (a : attr) (v : ref)      (* append_attribute *)
| EvPerform (cmd : string) (args : list (string * value))
| EvApply                                      (* api.apply() *)
| EvCreate (ty : string) (parent : ref) (r : ref) (* StcObject(objType=..) *)
| EvSleep.                                     (* time.sleep(1) *)

(** Python exceptions that the embedded code can raise. *)
Inductive exn :=
| TgnError (states : list string) (link_state : string) (timeout : Z)
    (* TgnError(f'Port failed to reach state {states}, port state is
       {link_state} after {timeout} seconds') *)
| AttributeError_None (meth : string)
    (* 'NoneType' object has no attribute meth: the None dereference *)
| UnboundLocalError (var : string)
| TypeError_None.  (* range(None) *)

Inductive res (A : Type) :=
| Ok (a : A)
| Err (e : exn).
Arguments Ok {A} a.
Arguments Err {A} e.

Record world := mkWorld {
  w_clock : nat;                               (* seconds slept so far *)
  w_log : list event;
  w_attrs : gmap (ref * attr) string;          (* attributes written by us *)
  w_lists : gmap (ref * attr) (list ref);      (* accumulating list attributes *)
  w_children : gmap ref (list (string * ref)); (* obj.objects: (type, ref) *)
  w_fresh : nat;                               (* next remote handle *)
  w_location : gmap ref string;                (* StcPort.location *)
  w_activephy : gmap ref ref                   (* StcPort.activephy *)
}.

Definition M (A : Type) := world -> res A * world.

Global Instance M_ret : MRet M := fun A a w => (Ok a, w).
Global Instance M_bind : MBind M := fun A B f m w =>
  match m w with
  | (Ok a, w') => f a w'
  | (Err e, w') => (Err e, w')
  end.

Definition raise {A} (e : exn) : M A := fun w => (Err e, w).

(** World updates. *)
Definition log_ev (e : event) (w : world) : world :=
  {| w_clock := w_clock w; w_log := w_log w ++ [e]; w_attrs := w_attrs w;
     w_lists := w_lists w; w_children := w_children w; w_fresh := w_fresh w;
     w_location := w_location w; w_activephy := w_activephy w |}.

Definition tick (w : world) : world :=
  {| w_clock := S (w_clock w); w_log := w_log w; w_attrs := w_attrs w;
     w_lists := w_lists w; w_children := w_children w; w_fresh := w_fresh w;
     w_location := w_location w; w_activephy := w_activephy w |}.

Definition write_attrs (r : ref) (kvs : list (attr * string)) (w : world) : world :=
  {| w_clock := w_clock w; w_log := w_log w;
     w_attrs := foldl (fun m kv => <[(r, kv.1) := kv.2]> m) (w_attrs w) kvs;
     w_lists := w_lists w; w_children := w_children w; w_fresh := w_fresh w;
     w_location := w_location w; w_activephy := w_activephy w |}.

Definition set_location (p : ref) (l : string) : M unit := fun w =>
  (Ok tt, {| w_clock := w_clock w; w_log := w_log w; w_attrs := w_attrs w;
     w_lists := w_lists w; w_children := w_children w; w_fresh := w_fresh w;
     w_location := <[p := l]> (w_location w); w_activephy := w_activephy w |}).

Definition set_activephy (p : ref) (r : ref) : M unit := fun w =>
  (Ok tt, {| w_clock := w_clock w; w_log := w_log w; w_attrs := w_attrs w;
     w_lists := w_lists w; w_children := w_children w; w_fresh := w_fresh w;
     w_location := w_location w; w_activephy := <[p := r]> (w_activephy w) |}).

Definition children_of (w : world) (o : ref) : list (string * ref) :=
  default [] (w_children w !! o).

(** obj.objects[ref] = child: an OrderedDict keyed by reference. *)
Definition register_child (o : ref) (c : string * ref) (w : world) : world :=
  let cs := children_of w o in
  {| w_clock := w_clock w; w_log := w_log w; w_attrs := w_attrs w;
     w_lists := w_lists w;
     w_children := <[o := if existsb (fun c' => String.eqb c'.2 c.2) cs
                          then cs else cs ++ [c]]> (w_children w);
     w_fresh := w_fresh w; w_location := w_location w;
     w_activephy := w_activephy w |}.

(** ASCII [str.lower()]. *)
Definition lower_ascii (c : ascii) : ascii :=
  let n := nat_of_ascii c in
  if ((65 <=? n) && (n <=? 90))%nat then ascii_of_nat (n + 32)%nat else c.

Fixpoint lower (s : string) : string :=
  match s with
  | EmptyString => EmptyString
  | String c s' => String (lower_ascii c) (lower s')
  end.

(** A fresh session: nothing issued, indexed or bound yet (StcPort.__init__
    leaves location and activephy None). *)
Definition empty_world : world := mkWorld 0 [] ∅ ∅ ∅ 0 ∅ ∅.

Section Session.

(** The remote side: attribute values as a function of elapsed seconds,
    the children the remote tree lists per type, the port an emulated device
    is affiliated to, the attribute names of an object, the project root,
    and [tgn_utils.is_local_host]. *)
Variable remote_at : nat -> ref -> attr -> string.
Variable remote_children : ref -> string -> list ref.
Variable device_port : ref -> ref.
Variable attr_names : ref -> list attr.
Variable project : ref.
Variable is_local_host : string -> bool.

Definition read_at (w : world) (n : nat) (r : ref) (a : attr) : string :=
  match w_attrs w !! (r, a) with
  | Some v => v
  | None => remote_at n r a
  end.

(** Modelled from the spec: StcObject.get_attribute (not under src/) fetches
    the attribute of the object's own remote reference. *)
Definition get_attribute (r : ref) (a : attr) : M string := fun w =>
  (Ok (read_at w (w_clock w) r a), log_ev (EvGet r a) w).

(** Modelled from the spec: StcObject.get_attributes (not under src/) fetches
    all attributes of the object's own remote reference. *)
Definition get_attributes (r : ref) : M (list (attr * string)) := fun w =>
  (Ok (map (fun a => (a, read_at w (w_clock w) r a)) (attr_names r)),
   log_ev (EvGetAll r) w).

Definition api_apply : M unit := fun w => (Ok tt, log_ev EvApply w).

Definition perform (cmd : string) (args : list (string * value)) : M unit :=
  fun w => (Ok tt, log_ev (EvPerform cmd args) w).

(** Modelled from the spec: StcObject.set_attributes (not under src/) stages
    the writes and flushes them only when [apply_] is true; its default
    [apply_=False] is the one of the override StcGenerator.set_attributes. *)
Definition set_attributes (r : ref) (apply_ : bool) (kvs : list (attr * string))
  : M unit := fun w =>
  let w1 := log_ev (EvConfig r kvs) (write_attrs r kvs w) in
  if apply_ then api_apply w1 else (Ok tt, w1).

Definition sleep1 : M unit := fun w => (Ok tt, tick (log_ev EvSleep w)).

(** [self.activephy] used as a receiver: None has no methods. *)
Definition deref_activephy (p : ref) (meth : string) : M ref := fun w =>
  match w_activephy w !! p with
  | Some r => (Ok r, w)
  | None => (Err (AttributeError_None meth), w)
  end.

(** ** StcPort.wait_for_states *)

Inductive loop_exit :=
| Returned
| Exhausted (link_state : option string).  (* None: link_state never bound *)

(** [for _ in range(n): link_state = ...; if link_state in states: return;
    time.sleep(1)] *)
Fixpoint wfs_loop (p : ref) (states : list string) (n : nat)
  (link_state : option string) : M loop_exit :=
  match n with
  | O => mret (Exhausted link_state)
  | S n' =>
      phy ← deref_activephy p "get_attribute";
      ls ← get_attribute phy "LinkStatus";
      if existsb (String.eqb ls) states then mret Returned
      else sleep1 ;; wfs_loop p states n' (Some ls)
  end.

Definition wait_for_states (p : ref) (timeout : option Z) (states : list string)
  : M unit :=
  match timeout with
  | None => raise TypeError_None
  | Some t =>
      e ← wfs_loop p states (Z.to_nat t) None;
      match e with
      | Returned => mret tt
      | Exhausted None => raise (UnboundLocalError "link_state")
      | Exhausted (Some ls) => raise (TgnError states ls t)
      end
  end.

(** ** StcPort.is_online *)
Definition is_online (p : ref) : M bool :=
  phy ← deref_activephy p "get_attribute";
  ls ← get_attribute phy "LinkStatus";
  mret (String.eqb (lower ls) "up").

(** ** StcPort.reserve *)
Definition reserve (p : ref) (location : option string) (force wait_for_up : bool)
  (timeout : option Z) : M unit :=
  loc ← match location with
        | Some l =>
            if String.eqb l "" then   (* if location: an empty string is falsy *)
              l' ← get_attribute p "Location"; set_location p l' ;; mret l'
            else
              set_location p l ;; set_attributes p false [("location", l)] ;; mret l
        | None => l' ← get_attribute p "Location"; set_location p l' ;; mret l'
        end;
  if negb (is_local_host loc) then
    perform "AttachPorts" [("PortList", VStr p); ("AutoConnect", VBool true);
                           ("RevokeOwner", VBool force)] ;;
    api_apply ;;
    phy ← get_attribute p "activephy-Targets";
    (* StcObject(parent=self, objRef=...) adopts an existing remote object *)
    set_activephy p phy ;;
    _ ← get_attributes phy;
    if wait_for_up then wait_for_states p timeout ["UP"] else mret tt
  else mret tt.

(** ** StcPort.get_name *)

Definition offline_tag := " (offline)".
Definition newline := String "010" EmptyString.

(** [re.sub(r' \(offline\)$', '', t)]: scan left to right and drop each
    match.  A match starts at the head of [t] iff [t] is the literal followed
    by what [$] accepts: the end of the string, or a final newline (which is
    not part of the match and stays). *)
Fixpoint re_sub_offline (t : string) : string :=
  match t with
  | EmptyString => EmptyString
  | String c t' =>
      if String.eqb t offline_tag then EmptyString
      else if String.eqb t (offline_tag +:+ newline) then newline
      else String c (re_sub_offline t')
  end.

Definition get_name (p : ref) : M string :=
  n ← get_attribute p "Name";
  mret (re_sub_offline n).

(** ** StcPort.get_children *)

(** Modelled from the spec: StcObject.get_objects_by_type (not under src/)
    returns, as a fresh list, the locally indexed objects of the given type. *)
Definition get_objects_by_type (o : ref) (ty : string) : M (list ref) := fun w =>
  (Ok (map snd (List.filter (fun c => String.eqb (lower c.1) (lower ty))
                  (children_of w o))), w).

Fixpoint register_all (o : ref) (ty : string) (cs : list ref) (w : world) : world :=
  match cs with
  | [] => w
  | c :: cs' =>
      let w1 := register_child o (ty, c) w in
      let w2 := if String.eqb (lower ty) "emulateddevice"
                then register_child (device_port c) (ty, c) w1 else w1 in
      register_all o ty cs' w2
  end.

(** Modelled from the spec: StcObject.get_children (not under src/) queries
    the remote tree for each type and indexes the children found; an
    emulated device, remotely a child of the project, is also indexed under
    the port it is affiliated to. *)
Fixpoint base_get_children (o : ref) (types : list string) : M (list ref) :=
  match types with
  | [] => mret []
  | t :: ts => fun w =>
      let cs := remote_children o t in
      let w1 := register_all o t cs (log_ev (EvGet o ("children-" ++ t)%string) w) in
      match base_get_children o ts w1 with
      | (Ok rest, w2) => (Ok (cs ++ rest), w2)
      | (Err e, w2) => (Err e, w2)
      end
  end.

(** [if not self.project.get_objects_by_type('emulateddevice'):
       self.project.get_children('emulateddevice')] *)
Definition ensure_project_devices : M unit :=
  idx ← get_objects_by_type project "emulateddevice";
  match idx with
  | [] => _ ← base_get_children project ["emulateddevice"]; mret tt
  | _ => mret tt
  end.

(** [if types: children_objs.extend(super().get_children( *types))];
    [return children_objs] *)
Definition extend_children (p : ref) (children_objs : list ref)
  (types : list string) : M (list ref) :=
  match types with
  | [] => mret children_objs
  | _ => more ← base_get_children p types; mret (children_objs ++ more)
  end.

Definition port_get_children (p : ref) (types : list string) : M (list ref) :=
  let types := map lower types in
  if existsb (String.eqb "emulateddevice") types then
    ensure_project_devices ;;
    children_objs ← get_objects_by_type p "emulateddevice";
    extend_children p children_objs
      (List.filter (fun t => negb (String.eqb t "emulateddevice")) types)
  else extend_children p [] types.

(** ** StcGenerator *)

(** A proxy object: a plain StcObject, or an StcGenerator with the reference
    of its GeneratorConfig child ([self.config]). *)
Inductive stc_obj :=
| StcObj (r : ref)
| StcGen (r : ref) (config : ref).

Definition obj_ref (o : stc_obj) : ref :=
  match o with StcObj r => r | StcGen r _ => r end.

(** Method dispatch: StcGenerator overrides get_attributes and set_attributes
    only; get_attribute is inherited. *)
Definition obj_get_attributes (o : stc_obj) : M (list (attr * string)) :=
  match o with
  | StcObj r => get_attributes r
  | StcGen _ config => get_attributes config
  end.

Definition obj_set_attributes (o : stc_obj) (apply_ : bool)
  (kvs : list (attr * string)) : M unit :=
  match o with
  | StcObj r => set_attributes r apply_ kvs
  | StcGen _ config => set_attributes config apply_ kvs
  end.

Definition obj_get_attribute (o : stc_obj) (a : attr) : M string :=
  get_attribute (obj_ref o) a.

(** StcPort.is_running, on the port's generator. *)
Definition is_running (generator : stc_obj) : M bool :=
  s ← obj_get_attribute generator "state";
  mret (String.eqb s "RUNNING").

(** ** StcLag.add_ports *)

(** Modelled from the spec: StcObject.append_attribute (not under src/)
    appends a value to an accumulating list attribute. *)
Definition append_attribute (r : ref) (a : attr) (v : ref) : M unit := fun w =>
  (Ok tt,
   {| w_clock := w_clock w; w_log := w_log w ++ [EvAppend r a v];
      w_attrs := w_attrs w;
      w_lists := <[(r, a) := default [] (w_lists w !! (r, a)) ++ [v]]> (w_lists w);
      w_children := w_children w; w_fresh := w_fresh w;
      w_location := w_location w; w_activephy := w_activephy w |}).

Definition list_attr (w : world) (r : ref) (a : attr) : list ref :=
  default [] (w_lists w !! (r, a)).

(** Modelled from the spec: StcObject(objType=ty, parent=parent) (not under
    src/) creates a remote object and gets a fresh reference from the session;
    references are never reused (spec, data model), so the new object is
    appended to its parent's index. *)
Definition create (ty : string) (parent : ref) : M ref := fun w =>
  let r := (ty ++ pretty (N.of_nat (w_fresh w)))%string in
  let w1 := log_ev (EvCreate ty parent r) w in
  let w2 := {| w_clock := w_clock w1; w_log := w_log w1; w_attrs := w_attrs w1;
               w_lists := w_lists w1; w_children := w_children w1;
               w_fresh := S (w_fresh w1); w_location := w_location w1;
               w_activephy := w_activephy w1 |} in
  (Ok r, {| w_clock := w_clock w2; w_log := w_log w2; w_attrs := w_attrs w2;
            w_lists := w_lists w2;
            w_children := <[parent := children_of w2 parent ++ [(ty, r)]]> (w_children w2);
            w_fresh := w_fresh w2; w_location := w_location w2;
            w_activephy := w_activephy w2 |}).

Fixpoint add_ports_loop (lag : ref) (ports : list ref) : M unit :=
  match ports with
  | [] => mret tt
  | stc_port :: ps =>
      append_attribute lag "PortSetMember-targets" stc_port ;;
      _ ← create "LacpPortConfig" stc_port;
      add_ports_loop lag ps
  end.

Definition add_ports (lag : ref) (ports : list ref) : M unit :=
  add_ports_loop lag ports ;; api_apply.

(** ** Observations used in the statements *)

(** The world after [evs] were issued and [k] seconds were slept. *)
Definition adv (w : world) (evs : list event) (k : nat) : world :=
  {| w_clock := w_clock w + k; w_log := w_log w ++ evs; w_attrs := w_attrs w;
     w_lists := w_lists w; w_children := w_children w; w_fresh := w_fresh w;
     w_location := w_location w; w_activephy := w_activephy w |}.

(** [k] unsuccessful polls of LinkStatus, each followed by a one-second sleep. *)
Definition poll_log (r : ref) (k : nat) : list event :=
  concat (repeat [EvGet r "LinkStatus"; EvSleep] k).

(** The LinkStatus of [r] read at poll attempt [i] (1-based) started in [w]. *)
Definition attempt_val (w : world) (r : ref) (i : nat) : string :=
  read_at w (w_clock w + pred i) r "LinkStatus".

(** Case-insensitive equality of ASCII strings, written after the spec's
    words (to be compared with the source's [lower(s) == 'up']): same length,
    and each pair of characters equal or the same letter in the other case. *)
Definition is_letter (c : ascii) : bool :=
  let n := nat_of_ascii c in
  ((65 <=? n) && (n <=? 90) || (97 <=? n) && (n <=? 122))%nat.

Definition same_char_ci (a b : ascii) : bool :=
  Ascii.eqb a b ||
  is_letter a && is_letter b &&
  ((nat_of_ascii a =? nat_of_ascii b + 32) || (nat_of_ascii b =? nat_of_ascii a + 32))%nat.

Fixpoint ci_eq (s t : string) : bool :=
  match s, t with
  | EmptyString, EmptyString => true
  | String a s', String b t' => same_char_ci a b && ci_eq s' t'
  | _, _ => false
  end.

(** The remote calls of [add_ports_loop lag ports] when the session's next
    fresh handle is [n]. *)
Fixpoint add_ports_events (lag : ref) (ports : list ref) (n : nat) : list event :=
  match ports with
  | [] => []
  | q :: ps =>
      EvAppend lag "PortSetMember-targets" q
      :: EvCreate "LacpPortConfig" q ("LacpPortConfig" +:+ pretty (N.of_nat n))
      :: add_ports_events lag ps (S n)
  end.

(** How reserve resolves the location: a non-empty [location] argument is
    stored and written as the port's location attribute; no argument (or an
    empty string) reads the remote Location attribute. *)
Definition resolution (p : ref) (location : option string) (w : world)
  (L : string) (pre : list event) : Prop :=
  (exists l, location = Some l /\ l <> "" /\ L = l /\
             pre = [EvConfig p [("location", l)]]) \/
  ((location = None \/ location = Some "") /\
   L = read_at w (w_clock w) p "Location" /\ pre = [EvGet p "Location"]).

(** Observations for get_children: the project-level enumeration of emulated
    devices, the devices indexed under an object, and the ownership invariant
    (a device indexed under a port other than the project is owned by it). *)
Definition is_enumeration (e : event) : bool :=
  match e with
  | EvGet r a => String.eqb r project && String.eqb a "children-emulateddevice"
  | _ => false
  end.

Definition enumerations (l : list event) : nat :=
  length (List.filter is_enumeration l).

Definition device_index (w : world) (o : ref) : list ref :=
  map snd (List.filter (fun c => String.eqb (lower c.1) "emulateddevice")
             (children_of w o)).

Definition owned_inv (w : world) : Prop :=
  forall q c, q <> project -> In c (children_of w q) ->
    String.eqb (lower c.1) "emulateddevice" = true -> device_port c.2 = q.

(** The requested types other than emulated devices, lowered. *)
Definition other_types (types : list string) : list string :=
  List.filter (fun t => negb (String.eqb t "emulateddevice")) (map lower types).

(** The references [cs] are indexed, under any object, only with the type
    of an emulated device. *)
Definition typed_on (cs : list ref) (w : world) : Prop :=
  forall q t c, In c cs -> In (t, c) (children_of w q) ->
    String.eqb (lower t) "emulateddevice" = true.

Definition typed_inv (w : world) : Prop :=
  typed_on (remote_children project "emulateddevice") w.

End Session.

Section Lifecycle.

(** The type of a remote object adopted by reference, and what
    [tgn_utils.is_local_host] returns (or raises) on the None location of a
    port that was never reserved. *)
Variable remote_type : ref -> string.
Variable is_local_host : string -> bool.
Variable none_local : res bool.

(** Modelled from the spec: TgnObject.obj_type (not under src/) is the type
    the proxy was created with.  An object created here is indexed with its
    type under its parent (see [create]); an object adopted by reference has
    the type of the remote object. *)
Definition obj_type_of (w : world) (parent r : ref) : string :=
  match List.find (fun c => String.eqb c.2 r) (children_of w parent) with
  | Some c => c.1
  | None => remote_type r
  end.

Definition obj_type (parent r : ref) : M string := fun w =>
  (Ok (obj_type_of w parent r), w).

(** Modelled from the spec: StcObject.set_targets (not under src/) writes
    the target attributes [<name>-targets] through set_attributes. *)
Definition set_targets (r : ref) (apply_ : bool) (kvs : list (attr * ref)) : M unit :=
  set_attributes r apply_ (map (fun kv => (kv.1 +:+ "-targets", kv.2)) kvs).

(** ** StcPort.set_media_type *)
Definition set_media_type (p : ref) (media_type : string) : M unit :=
  phy ← deref_activephy p "obj_type";
  t ← obj_type p phy;
  if negb (String.eqb media_type t) then
    new_phy ← create media_type p;
    set_targets p true [("ActivePhy", new_phy)] ;;
    set_activephy p new_phy
  else mret tt.

(** ** StcPort.release *)

(** [is_local_host(self.location)], [self.location] being None until
    reserve stores one. *)
Definition location_is_local (p : ref) : M bool := fun w =>
  match w_location w !! p with
  | Some l => (Ok (is_local_host l), w)
  | None => (none_local, w)
  end.

Definition release (p : ref) : M unit :=
  local ← location_is_local p;
  if negb local then perform "ReleasePort" [("portList", VStr p)] else mret tt.

End Lifecycle.

(** * A concrete session used to run the statements *)

(** A port p1 whose activephy phy1 reports DOWN during the first second and
    UP afterwards; a generator gen whose config cfg is stopped while the
    generator object itself reports RUNNING. *)
Definition demo_remote (n : nat) (r : ref) (a : attr) : string :=
  if String.eqb a "LinkStatus" then (if (1 <=? n)%nat then "UP" else "DOWN")
  else if String.eqb a "activephy-Targets" then "phy1"
  else if String.eqb a "Location" then "localhost"
  else if String.eqb a "Name" then "Port1 (offline) (offline)"
  else if String.eqb a "state" then
    (if String.eqb r "gen" then "RUNNING" else "STOPPED")
  else "".

Definition demo_attr_names (r : ref) : list attr := ["LinkStatus"; "Name"].

Definition demo_local_host (l : string) : bool := String.eqb l "localhost".

(** A project proj with devices d1 (on port p1) and d2 (on port p2). *)
Definition demo_children (o : ref) (t : string) : list ref :=
  if String.eqb o "proj" && String.eqb t "emulateddevice" then ["d1"; "d2"]
  else [].

Definition demo_device_port (d : ref) : ref :=
  if String.eqb d "d1" then "p1" else "p2".

(** A project with no emulated devices at all. *)
Definition no_children (o : ref) (t : string) : list ref := [].

(** A session in which the project's device d1 is indexed under the project
    and under its port p1. *)
Definition indexed_world : world :=
  mkWorld 0 [] ∅ ∅
    (<["p1" := [("EmulatedDevice", "d1")]]> {["proj" := [("EmulatedDevice", "d1")]]})
    0 ∅ ∅.

(** A session in which p1's activephy is bound to phy1. *)
Definition bound_world : world := mkWorld 0 [] ∅ ∅ ∅ 0 ∅ {["p1" := "phy1"]}.

(** * Proofs *)

Section Proofs.

Variable remote_at : nat -> ref -> attr -> string.
Variable remote_children : ref -> string -> list ref.
Variable device_port : ref -> ref.
Variable attr_names : ref -> list attr.
Variable project : ref.
Variable is_local_host : string -> bool.

Lemma adv_0 (w : world) : adv w [] 0 = w.
Proof. destruct w; unfold adv; cbn; f_equal; [lia | apply app_nil_r]. Qed.

Lemma adv_adv (w : world) e1 e2 k1 k2 :
  adv (adv w e1 k1) e2 k2 = adv w (e1 ++ e2) (k1 + k2).
Proof. unfold adv; cbn; f_equal; [lia | by rewrite app_assoc]. Qed.

Lemma log_ev_adv (w : world) e : log_ev e w = adv w [e] 0.
Proof. destruct w; unfold log_ev, adv; cbn; f_equal; lia. Qed.

Lemma poll_step_adv (w : world) r :
  tick (log_ev EvSleep (log_ev (EvGet r "LinkStatus") w))
  = adv w [EvGet r "LinkStatus"; EvSleep] 1.
Proof. destruct w; unfold tick, log_ev, adv; cbn; f_equal; [lia | by rewrite <- app_assoc]. Qed.

Lemma read_at_adv (w : world) evs k n r a :
  read_at remote_at (adv w evs k) n r a = read_at remote_at w n r a.
Proof. reflexivity. Qed.

Lemma existsb_eqb_In (x : string) (l : list string) :
  existsb (String.eqb x) l = true <-> In x l.
Proof.
  rewrite existsb_exists; split.
  - intros (y & Hy & Heq). apply String.eqb_eq in Heq. by subst.
  - intros H. exists x. split; [done | apply String.eqb_refl].
Qed.

(** One iteration of the polling loop. *)
Lemma wfs_loop_S p r states n ls0 (w : world) :
  w_activephy w !! p = Some r ->
  wfs_loop remote_at p states (S n) ls0 w =
  let v := read_at remote_at w (w_clock w) r "LinkStatus" in
  if existsb (String.eqb v) states
  then (Ok Returned, adv w [EvGet r "LinkStatus"] 0)
  else wfs_loop remote_at p states n (Some v) (adv w [EvGet r "LinkStatus"; EvSleep] 1).
Proof.
  intros Hphy. cbn. unfold mbind, M_bind, deref_activephy. rewrite Hphy.
  unfold get_attribute. cbn.
  destruct (existsb _ states); [by rewrite log_ev_adv | ].
  unfold sleep1. by rewrite poll_step_adv.
Qed.

(** The loop returns at the first poll whose value is requested. *)
Lemma wfs_loop_hit p r states : forall k n ls0 (w : world),
  w_activephy w !! p = Some r -> (k < n)%nat ->
  (forall i, (i < k)%nat ->
     ~ In (read_at remote_at w (w_clock w + i) r "LinkStatus") states) ->
  In (read_at remote_at w (w_clock w + k) r "LinkStatus") states ->
  wfs_loop remote_at p states n ls0 w
  = (Ok Returned, adv w (poll_log r k ++ [EvGet r "LinkStatus"]) k).
Proof.
  induction k as [|k IH]; intros n ls0 w Hphy Hk Hmiss Hhit;
    (destruct n as [|n]; [lia|]); rewrite (wfs_loop_S _ r) by done; cbn zeta.
  - rewrite Nat.add_0_r in Hhit. apply existsb_eqb_In in Hhit. by rewrite Hhit.
  - assert (Hm0 := Hmiss 0%nat ltac:(lia)). rewrite Nat.add_0_r in Hm0.
    destruct (existsb _ states) eqn:E; [apply existsb_eqb_In in E; done|].
    rewrite IH.
    + rewrite adv_adv. f_equal.
    + done.
    + lia.
    + intros i Hi. cbn.
      replace (w_clock w + 1 + i)%nat with (w_clock w + S i)%nat by lia.
      apply Hmiss; lia.
    + cbn. replace (w_clock w + 1 + k)%nat with (w_clock w + S k)%nat by lia.
      done.
Qed.

(** The loop runs out after [n] unsuccessful polls, keeping the last value. *)
Lemma wfs_loop_miss p r states : forall n ls0 (w : world),
  w_activephy w !! p = Some r -> (0 < n)%nat ->
  (forall i, (i < n)%nat ->
     ~ In (read_at remote_at w (w_clock w + i) r "LinkStatus") states) ->
  wfs_loop remote_at p states n ls0 w
  = (Ok (Exhausted (Some (read_at remote_at w (w_clock w + (n - 1)) r "LinkStatus"))),
     adv w (poll_log r n) n).
Proof.
  induction n as [|n IH]; intros ls0 w Hphy Hn Hmiss; [lia|].
  rewrite (wfs_loop_S _ r) by done; cbn zeta.
  assert (Hm0 := Hmiss 0%nat ltac:(lia)). rewrite Nat.add_0_r in Hm0.
  destruct (existsb _ states) eqn:E; [apply existsb_eqb_In in E; done|].
  destruct n as [|n].
  - cbn. by rewrite Nat.add_0_r.
  - rewrite IH.
    + rewrite adv_adv. cbn.
      replace (w_clock w + 1 + (n - 0))%nat with (w_clock w + (S n - 0))%nat by lia.
      done.
    + done.
    + lia.
    + intros i Hi. cbn.
      replace (w_clock w + 1 + i)%nat with (w_clock w + S i)%nat by lia.
      apply Hmiss; lia.
Qed.

(** ** C1 *)

(** C1: with a budget [T >= 1], wait_for_states polls the bound activephy's
    LinkStatus once per attempt with a one-second sleep after each miss;
    if the value first belongs to [states] at attempt [k <= T], it returns
    normally after exactly [k] polls and [k - 1] sleeps; if no attempt up to
    [T] sees a requested state, after [T] polls and [T] sleeps it raises the
    timeout TgnError carrying [states], the last observed value and [T]. *)
Theorem wait_for_states_polls (p r : ref) (T : Z) (states : list string)
  (w : world) (Hphy : w_activephy w !! p = Some r) (HT : (1 <= T)%Z) :
  (forall k, (1 <= k <= Z.to_nat T)%nat ->
     (forall i, (1 <= i < k)%nat -> ~ In (attempt_val remote_at w r i) states) ->
     In (attempt_val remote_at w r k) states ->
     wait_for_states remote_at p (Some T) states w
     = (Ok tt, adv w (poll_log r (k - 1) ++ [EvGet r "LinkStatus"]) (k - 1)))
  /\
  ((forall i, (1 <= i <= Z.to_nat T)%nat ->
      ~ In (attempt_val remote_at w r i) states) ->
   wait_for_states remote_at p (Some T) states w
   = (Err (TgnError states (attempt_val remote_at w r (Z.to_nat T)) T),
      adv w (poll_log r (Z.to_nat T)) (Z.to_nat T))).
Proof.
  unfold attempt_val. split.
  - intros k Hk Hmiss Hhit. cbn. unfold mbind, M_bind.
    rewrite (wfs_loop_hit _ r _ (k - 1)).
    + done.
    + done.
    + lia.
    + intros i Hi. replace i with (pred (S i)) by lia. apply Hmiss; lia.
    + replace (k - 1)%nat with (pred k) by lia. done.
  - intros Hmiss. cbn. unfold mbind, M_bind.
    rewrite (wfs_loop_miss _ r).
    + cbn. replace (Z.to_nat T - 1)%nat with (pred (Z.to_nat T)) by lia. done.
    + done.
    + lia.
    + intros i Hi. replace i with (pred (S i)) by lia. apply Hmiss; lia.
Qed.

(** ** C10 *)

(** C10: with a budget of zero the loop body never runs, nothing is polled
    and the world is unchanged, and formatting the timeout message reads the
    unbound [link_state]: UnboundLocalError instead of the TgnError; the
    TgnError is only raised with a budget of at least one. *)
Theorem wait_for_states_zero_budget (p : ref) (states : list string) (w : world) :
  wait_for_states remote_at p (Some 0%Z) states w
  = (Err (UnboundLocalError "link_state"), w)
  /\ (forall T st ls t' w',
        wait_for_states remote_at p (Some T) states w = (Err (TgnError st ls t'), w') ->
        (1 <= T)%Z).
Proof.
  split; [done|].
  intros T st ls t' w' H.
  destruct (Z_lt_le_dec 0 T) as [HT|HT]; [lia|].
  exfalso. cbn in H. unfold mbind, M_bind in H.
  replace (Z.to_nat T) with 0%nat in H by lia. cbn in H. discriminate H.
Qed.

(** ** C9 *)

Lemma lower_u (a : ascii) : Ascii.eqb (lower_ascii a) "u" = same_char_ci a "u".
Proof. destruct a as [[] [] [] [] [] [] [] []]; reflexivity. Qed.

Lemma lower_p (a : ascii) : Ascii.eqb (lower_ascii a) "p" = same_char_ci a "p".
Proof. destruct a as [[] [] [] [] [] [] [] []]; reflexivity. Qed.

Lemma lower_eqb_up (s : string) : String.eqb (lower s) "up" = ci_eq s "up".
Proof.
  destruct s as [|a [|b s]]; [done| |].
  - cbn. destruct (Ascii.eqb (lower_ascii a) "u"), (same_char_ci a "u"); done.
  - cbn -[lower_ascii same_char_ci].
    rewrite <- lower_u, <- lower_p.
    destruct s; cbn -[lower_ascii]; destruct (Ascii.eqb _ "u"), (Ascii.eqb _ "p"); done.
Qed.

(** C9: on a port whose activephy is bound, is_online reads the activephy's
    LinkStatus once and returns true exactly when that value equals "up"
    compared case-insensitively. *)
Theorem is_online_iff_up (p r : ref) (w : world)
  (Hphy : w_activephy w !! p = Some r) :
  is_online remote_at p w
  = (Ok (ci_eq (read_at remote_at w (w_clock w) r "LinkStatus") "up"),
     log_ev (EvGet r "LinkStatus") w).
Proof.
  unfold is_online, mbind, M_bind, deref_activephy. rewrite Hphy.
  unfold get_attribute. cbn -[lower ci_eq]. by rewrite lower_eqb_up.
Qed.

(** ** C4 *)

(** C4 (as the code does it): on a port with no activephy bound, is_online
    and wait_for_states with a budget of at least one issue no remote call
    and fail with Python's AttributeError on None; nothing guards them. *)
Theorem unbound_activephy_none_deref (p : ref) (w : world)
  (Hnone : w_activephy w !! p = None) :
  is_online remote_at p w = (Err (AttributeError_None "get_attribute"), w)
  /\ (forall (T : Z) (states : list string), (1 <= T)%Z ->
        wait_for_states remote_at p (Some T) states w
        = (Err (AttributeError_None "get_attribute"), w)).
Proof.
  split.
  - unfold is_online, mbind, M_bind, deref_activephy. by rewrite Hnone.
  - intros T states HT. cbn. unfold mbind, M_bind.
    destruct (Z.to_nat T) as [|n] eqn:E; [lia|].
    cbn. unfold mbind, M_bind, deref_activephy. by rewrite Hnone.
Qed.

(** ** C7 *)

Lemma length_app_str (a b : string) :
  String.length (a +:+ b) = (String.length a + String.length b)%nat.
Proof. induction a; cbn; congruence. Qed.

Lemma cons_app_tag_ne (c : ascii) (u : string) :
  String c u +:+ offline_tag <> offline_tag /\
  String c u +:+ offline_tag <> offline_tag +:+ newline.
Proof.
  split; intros H; assert (Hl := f_equal String.length H);
    rewrite ?length_app_str in Hl; cbn in Hl.
  - lia.
  - destruct u; cbn in Hl; [|lia]. unfold offline_tag, newline in H. cbn in H. congruence.
Qed.

Lemma cons_app_tagnl_ne (c : ascii) (u : string) :
  String c u +:+ (offline_tag +:+ newline) <> offline_tag /\
  String c u +:+ (offline_tag +:+ newline) <> offline_tag +:+ newline.
Proof.
  split; intros H; assert (Hl := f_equal String.length H);
    rewrite ?length_app_str in Hl; cbn in Hl; lia.
Qed.

Lemma re_sub_tag (u : string) : re_sub_offline (u +:+ offline_tag) = u.
Proof.
  induction u as [|c u IH]; [done|].
  destruct (cons_app_tag_ne c u) as [H1 H2].
  change (String c u +:+ offline_tag) with (String c (u +:+ offline_tag)) in *.
  cbn [re_sub_offline]. apply String.eqb_neq in H1, H2. rewrite H1, H2.
  by rewrite IH.
Qed.

Lemma re_sub_tag_newline (u : string) :
  re_sub_offline (u +:+ (offline_tag +:+ newline)) = u +:+ newline.
Proof.
  induction u as [|c u IH]; [done|].
  destruct (cons_app_tagnl_ne c u) as [H1 H2].
  change (String c u +:+ (offline_tag +:+ newline))
    with (String c (u +:+ (offline_tag +:+ newline))) in *.
  cbn [re_sub_offline]. apply String.eqb_neq in H1, H2. rewrite H1, H2.
  by rewrite IH.
Qed.

Lemma re_sub_no_tag (s : string) :
  (forall u, s <> u +:+ offline_tag /\ s <> u +:+ (offline_tag +:+ newline)) ->
  re_sub_offline s = s.
Proof.
  induction s as [|c s IH]; intros H; [done|].
  assert (H1 : String c s <> offline_tag)
    by (intros E; apply (proj1 (H EmptyString)); exact E).
  assert (H2 : String c s <> offline_tag +:+ newline)
    by (intros E; apply (proj2 (H EmptyString)); exact E).
  cbn [re_sub_offline]. apply String.eqb_neq in H1, H2. rewrite H1, H2.
  rewrite IH; [done|].
  intros u. split; intros E.
  - apply (proj1 (H (String c u))). rewrite E. reflexivity.
  - apply (proj2 (H (String c u))). rewrite E. reflexivity.
Qed.

(** C7 (as the code does it): get_name reads the remote Name once and
    removes one trailing " (offline)": a Name [u ++ " (offline)"] yields [u]
    (so "Port1 (offline)" yields "Port1", and "Port1 (offline) (offline)"
    yields "Port1 (offline)": one suffix per read, the strip is not
    idempotent); a suffix followed by a final newline is removed too and the
    newline kept; any other Name is returned unchanged. *)
Theorem get_name_strips_one_suffix (p : ref) (w : world) :
  let n := read_at remote_at w (w_clock w) p "Name" in
  exists name,
    get_name remote_at p w = (Ok name, log_ev (EvGet p "Name") w) /\
    (forall u, n = u +:+ offline_tag -> name = u) /\
    (forall u, n = u +:+ (offline_tag +:+ newline) -> name = u +:+ newline) /\
    ((forall u, n <> u +:+ offline_tag /\ n <> u +:+ (offline_tag +:+ newline)) ->
     name = n).
Proof.
  cbn zeta. eexists. split; [reflexivity|].
  split; [|split].
  - intros u ->. apply re_sub_tag.
  - intros u ->. apply re_sub_tag_newline.
  - apply re_sub_no_tag.
Qed.

(** ** C8 *)

(** C8 (as the code does it): StcGenerator forwards get_attributes and
    set_attributes, with the same arguments, to its GeneratorConfig child;
    get_attribute is inherited and reads the generator's own remote object,
    which is what is_running does for 'state'. *)
Theorem generator_forwards_bulk_only (g c : ref) (apply_ : bool)
  (kvs : list (attr * string)) (a : attr) (w : world) :
  obj_get_attributes remote_at attr_names (StcGen g c) w
    = obj_get_attributes remote_at attr_names (StcObj c) w
  /\ obj_set_attributes (StcGen g c) apply_ kvs w
    = obj_set_attributes (StcObj c) apply_ kvs w
  /\ obj_get_attribute remote_at (StcGen g c) a w
    = obj_get_attribute remote_at (StcObj g) a w
  /\ is_running remote_at (StcGen g c) w
    = (Ok (String.eqb (read_at remote_at w (w_clock w) g "state") "RUNNING"),
       log_ev (EvGet g "state") w).
Proof. repeat split. Qed.

(** ** C5 *)

Lemma add_ports_loop_spec (lag : ref) : forall (ports : list ref) (w : world),
  exists w', add_ports_loop lag ports w = (Ok tt, w') /\
    list_attr w' lag "PortSetMember-targets"
      = list_attr w lag "PortSetMember-targets" ++ ports /\
    (forall q, map fst (children_of w' q)
       = map fst (children_of w q)
         ++ repeat "LacpPortConfig" (count_occ string_dec ports q)) /\
    w_log w' = w_log w ++ add_ports_events lag ports (w_fresh w) /\
    w_fresh w' = (w_fresh w + length ports)%nat.
Proof.
  induction ports as [|q ps IH]; intros w.
  - exists w. cbn. rewrite !app_nil_r. repeat split; [|lia].
    intros q. by rewrite app_nil_r.
  - cbn [add_ports_loop]. unfold mbind, M_bind at 1, append_attribute.
    unfold mbind, M_bind at 1, create.
    edestruct IH as (w' & Hrun & Hl & Hc & Hlog & Hf).
    exists w'. rewrite Hrun. split; [done|].
    split; [|split; [|split]].
    + rewrite Hl. unfold list_attr. cbn. rewrite lookup_insert_eq. cbn.
      by rewrite <- app_assoc.
    + intros q'. rewrite Hc. unfold children_of at 1; cbn.
      rewrite lookup_insert. cbn.
      destruct (decide (q = q')) as [->|Hne].
      * destruct (string_dec q' q'); [|done]. cbn.
        unfold children_of. rewrite map_app, <- app_assoc. done.
      * destruct (string_dec q q'); [done|]. done.
    + rewrite Hlog. cbn. by rewrite <- !app_assoc.
    + rewrite Hf. cbn. lia.
Qed.

(** C5: add_ports(lag, *ports) appends each port's reference, in order, to
    the lag's PortSetMember-targets list (never replacing it), creates one
    LacpPortConfig child under the port for each occurrence of it in the
    batch, and issues exactly one apply, after the whole batch; so
    add_ports(p1, p2) then add_ports(p3) on an empty group gives
    [p1; p2; p3]. *)
Theorem add_ports_appends (lag : ref) (ports : list ref) (w : world) :
  exists w', add_ports lag ports w = (Ok tt, w') /\
    list_attr w' lag "PortSetMember-targets"
      = list_attr w lag "PortSetMember-targets" ++ ports /\
    (forall q, map fst (children_of w' q)
       = map fst (children_of w q)
         ++ repeat "LacpPortConfig" (count_occ string_dec ports q)) /\
    w_log w' = w_log w ++ add_ports_events lag ports (w_fresh w) ++ [EvApply] /\
    ~ In EvApply (add_ports_events lag ports (w_fresh w)).
Proof.
  destruct (add_ports_loop_spec lag ports w) as (w' & Hrun & Hl & Hc & Hlog & _).
  exists (log_ev EvApply w'). unfold add_ports, mbind, M_bind. rewrite Hrun.
  split; [done|]. split; [done|]. split; [done|]. split.
  - cbn. rewrite Hlog. by rewrite <- app_assoc.
  - clear. generalize (w_fresh w). induction ports as [|q ps IH]; intros n; cbn.
    + tauto.
    + intros [H|[H|H]]; [discriminate|discriminate|exact (IH _ H)].
Qed.

(** ** C2, C3 *)

(** Reading activephy-Targets is unaffected by the port's location write. *)
Ltac norm_target_read :=
  match goal with
  | |- context [read_at ?ra ?w' ?n ?p "activephy-Targets"] =>
      lazymatch w' with
      | {| w_clock := _ |} => fail
      | _ => idtac
      end;
      let w0 := match goal with w0 : world |- _ => w0 end in
      assert (HX : read_at ra w' n p "activephy-Targets"
                   = read_at ra w0 n p "activephy-Targets")
        by (unfold read_at; cbn;
            rewrite ?lookup_insert_ne by (intros [=]; congruence); done);
      rewrite HX; clear HX
  end.

(** C2 (as the code does it): [if location:] tests Python truthiness.  On
    every call, reserve first resolves the location: a non-empty location
    argument is stored and written as the port's location attribute, while
    no argument or an empty string reads the remote Location and adopts it
    (the resolved [L] is stored as the port's location in both cases).
    When [L] is local nothing else happens.  When it is not, reserve then
    performs AttachPorts on the port with AutoConnect=True and
    RevokeOwner=force, applies, binds activephy to the object named by the
    remote activephy-Targets, loads that object's attributes and, exactly
    when [wait_for_up] holds, continues as wait_for_states with the given
    timeout and the single state 'UP'. *)
Theorem reserve_resolves_then_attaches (p : ref) (location : option string)
  (force wait_for_up : bool) (timeout : option Z) (w : world) :
  exists L pre w1,
    resolution remote_at p location w L pre /\
    (if is_local_host L then
       reserve remote_at attr_names is_local_host p location force wait_for_up timeout w
         = (Ok tt, w1) /\
       w_log w1 = w_log w ++ pre /\
       w_activephy w1 = w_activephy w
     else
       reserve remote_at attr_names is_local_host p location force wait_for_up timeout w
         = (if wait_for_up then wait_for_states remote_at p timeout ["UP"] w1
            else (Ok tt, w1)) /\
       w_log w1 = w_log w ++ pre ++
         [EvPerform "AttachPorts" [("PortList", VStr p); ("AutoConnect", VBool true);
                                   ("RevokeOwner", VBool force)];
          EvApply; EvGet p "activephy-Targets";
          EvGetAll (read_at remote_at w (w_clock w) p "activephy-Targets")] /\
       w_activephy w1 !! p = Some (read_at remote_at w (w_clock w) p "activephy-Targets")) /\
    w_location w1 !! p = Some L /\
    w_clock w1 = w_clock w.
Proof.
  assert (Hcase : (exists l, location = Some l /\ l <> "") \/
                  location = None \/ location = Some "").
  { destruct location as [l|]; [|by right; left].
    destruct (String.eqb l "") eqn:E.
    - apply String.eqb_eq in E. subst. by right; right.
    - left. exists l. split; [done|]. by apply String.eqb_neq. }
  destruct Hcase as [(l & -> & Hne) | [-> | ->]];
    [exists l, [EvConfig p [("location", l)]]
    |exists (read_at remote_at w (w_clock w) p "Location"), [EvGet p "Location"]..];
    unfold reserve, mbind, M_bind, mret, M_ret;
    [assert (Hb : String.eqb l "" = false) by (by apply String.eqb_neq); rewrite Hb| |];
    cbn -[wait_for_states read_at];
    (destruct (is_local_host _) eqn:Hl; cbn -[wait_for_states read_at]);
    try norm_target_read;
    (eexists; split;
      [first [ left; exists l; split; [done|split; [exact Hne|split; done]]
             | right; split; [by left|split; done]
             | right; split; [by right|split; done] ]|]);
    (split; [split; [first [reflexivity | destruct wait_for_up; reflexivity]|]|]);
    cbn; rewrite <- ?app_assoc;
    repeat split; try apply lookup_insert_eq; done.
Qed.

(** C3: when the resolved location is local, reserve issues no AttachPorts,
    no apply and no poll: its only remote call is the location write or read;
    the port's activephy is left as it was, so a port with no activephy
    bound still has none. *)
Theorem reserve_local_no_attach (p : ref) (location : option string)
  (force wait_for_up : bool) (timeout : option Z) (w : world)
  (L : string) (pre : list event)
  (Hres : resolution remote_at p location w L pre) (Hl : is_local_host L = true) :
  exists w1,
    reserve remote_at attr_names is_local_host p location force wait_for_up timeout w
      = (Ok tt, w1) /\
    w_log w1 = w_log w ++ pre /\
    w_activephy w1 = w_activephy w /\
    (w_activephy w !! p = None -> w_activephy w1 !! p = None) /\
    w_location w1 !! p = Some L.
Proof.
  destruct Hres as [(l & -> & Hne & -> & ->) | ([-> | ->] & -> & ->)];
    [apply String.eqb_neq in Hne|..];
    unfold reserve, mbind, M_bind, mret, M_ret; rewrite ?Hne;
    cbn -[read_at]; rewrite Hl; cbn -[read_at];
    (eexists; split; [reflexivity|]); cbn;
    (split; [done|]); (split; [done|]); (split; [done|]);
    apply lookup_insert_eq.
Qed.

(** ** C6 *)

Lemma register_child_incl (o : ref) (c : string * ref) (w : world) q x :
  In x (children_of w q) -> In x (children_of (register_child o c w) q).
Proof.
  unfold register_child, children_of; cbn. rewrite lookup_insert.
  destruct (decide (o = q)) as [->|]; cbn; [|done].
  destruct (existsb _ _); [done|]. intros H. apply in_or_app. by left.
Qed.

Lemma register_child_in (o : ref) (c : string * ref) (w : world) q x :
  In x (children_of (register_child o c w) q) ->
  In x (children_of w q) \/ (q = o /\ x = c).
Proof.
  unfold register_child, children_of; cbn. rewrite lookup_insert.
  destruct (decide (o = q)) as [->|]; cbn; [|by left].
  destruct (existsb _ _); [by left|].
  intros H. apply in_app_or in H as [H|[H|[]]]; [by left|by right].
Qed.

Lemma register_child_has (o : ref) (c : string * ref) (w : world) :
  exists t, In (t, c.2) (children_of (register_child o c w) o).
Proof.
  unfold register_child, children_of; cbn. rewrite lookup_insert_eq; cbn.
  destruct (existsb _ _) eqn:E.
  - apply existsb_exists in E as ([t r] & Hin & Heq).
    apply String.eqb_eq in Heq. cbn in Heq. subst. by exists t.
  - exists c.1. apply in_or_app. right. destruct c; by left.
Qed.

Lemma register_child_log (o : ref) (c : string * ref) (w : world) :
  w_log (register_child o c w) = w_log w.
Proof. done. Qed.

Lemma register_all_log (o : ref) t cs : forall (w : world),
  w_log (register_all device_port o t cs w) = w_log w.
Proof.
  induction cs as [|c cs IH]; intros w; cbn; [done|].
  rewrite IH. destruct (String.eqb _ _); done.
Qed.

Lemma register_all_incl (o : ref) t cs : forall (w : world) q x,
  In x (children_of w q) -> In x (children_of (register_all device_port o t cs w) q).
Proof.
  induction cs as [|c cs IH]; intros w q x H; cbn; [done|].
  apply IH. destruct (String.eqb _ _); rewrite ?register_child_incl;
    repeat apply register_child_incl; done.
Qed.

Lemma register_all_in (o : ref) t cs : forall (w : world) q x,
  In x (children_of (register_all device_port o t cs w) q) ->
  In x (children_of w q) \/
  (exists c, In c cs /\ x = (t, c) /\
     (q = o \/ (String.eqb (lower t) "emulateddevice" = true /\ q = device_port c))).
Proof.
  induction cs as [|c cs IH]; intros w q x H; cbn in H; [by left|].
  apply IH in H as [H|(c' & Hc' & -> & Hq)].
  - destruct (String.eqb (lower t) "emulateddevice") eqn:E.
    + apply register_child_in in H as [H|[-> ->]].
      * apply register_child_in in H as [H|[-> ->]]; [by left|].
        right. exists c. split; [by left|]. split; [done|]. by left.
      * right. exists c. split; [by left|]. split; [done|]. by right.
    + apply register_child_in in H as [H|[-> ->]]; [by left|].
      right. exists c. split; [by left|]. split; [done|]. by left.
  - right. exists c'. split; [by right|]. done.
Qed.

Lemma register_all_has (o : ref) t cs : forall (w : world) c,
  In c cs -> exists t', In (t', c) (children_of (register_all device_port o t cs w) o).
Proof.
  induction cs as [|c0 cs IH]; intros w c Hc; [done|].
  destruct Hc as [->|Hc]; [|by apply IH].
  cbn. set (w1 := register_child o (t, c) w).
  destruct (register_child_has o (t, c) w) as [t' Ht'].
  exists t'. apply register_all_incl.
  destruct (String.eqb _ _); [apply register_child_incl|]; done.
Qed.

Lemma base_get_children_spec (o : ref) (ts : list string) : forall (w : world),
  exists w',
    base_get_children remote_children device_port o ts w
      = (Ok (concat (map (remote_children o) ts)), w') /\
    w_log w' = w_log w ++ map (fun t => EvGet o ("children-" +:+ t)) ts /\
    (forall q x, In x (children_of w q) -> In x (children_of w' q)) /\
    (forall q x, In x (children_of w' q) ->
       In x (children_of w q) \/
       exists t c, In t ts /\ In c (remote_children o t) /\ x = (t, c) /\
         (q = o \/ (String.eqb (lower t) "emulateddevice" = true /\ q = device_port c))) /\
    (forall t c, In t ts -> In c (remote_children o t) ->
       exists t', In (t', c) (children_of w' o)).
Proof.
  induction ts as [|t ts IH]; intros w.
  - exists w. cbn. rewrite app_nil_r. repeat split; try done; by left.
  - cbn [base_get_children].
    set (w1 := register_all device_port o t (remote_children o t)
                 (log_ev (EvGet o ("children-" +:+ t)) w)).
    destruct (IH w1) as (w' & Hrun & Hlog & Hincl & Hin & Hhas).
    exists w'. rewrite Hrun. split; [done|]. split; [|split; [|split]].
    + rewrite Hlog. subst w1. rewrite register_all_log. cbn.
      by rewrite <- app_assoc.
    + intros q x Hx. apply Hincl. subst w1. by apply register_all_incl.
    + intros q x Hx. apply Hin in Hx as [Hx|(t' & c & Ht & Hc & -> & Hq)].
      * subst w1. apply register_all_in in Hx as [Hx|(c & Hc & -> & Hq)];
          [by left|].
        right. exists t, c. split; [by left|]. done.
      * right. exists t', c. split; [by right|]. done.
    + intros t' c [<-|Ht] Hc.
      * destruct (register_all_has o t (remote_children o t)
                    (log_ev (EvGet o ("children-" +:+ t)) w) c Hc) as [t'' H].
        exists t''. by apply Hincl.
      * exact (Hhas _ _ Ht Hc).
Qed.

Lemma owned_inv_base (o : ref) (ts : list string) (w w' : world) :
  owned_inv device_port project w ->
  (o = project \/ forall t, In t ts -> String.eqb (lower t) "emulateddevice" = false) ->
  (forall q x, In x (children_of w' q) ->
     In x (children_of w q) \/
     exists t c, In t ts /\ In c (remote_children o t) /\ x = (t, c) /\
       (q = o \/ (String.eqb (lower t) "emulateddevice" = true /\ q = device_port c))) ->
  owned_inv device_port project w'.
Proof.
  intros Hinv Ho Hin q x Hq Hx Hed.
  apply Hin in Hx as [Hx|(t & c & Ht & Hc & -> & [->|[_ ->]])].
  - by apply Hinv.
  - destruct Ho as [->|Ho]; [done|]. cbn in Hed. by rewrite Ho in Hed.
  - done.
Qed.

Lemma lower_ascii_idem (a : ascii) : lower_ascii (lower_ascii a) = lower_ascii a.
Proof. destruct a as [[] [] [] [] [] [] [] []]; reflexivity. Qed.

Lemma lower_idem (s : string) : lower (lower s) = lower s.
Proof. induction s as [|a s IH]; cbn; [done|]. by rewrite lower_ascii_idem, IH. Qed.

Lemma get_objects_by_type_ed (o : ref) (w : world) :
  get_objects_by_type o "emulateddevice" w = (Ok (device_index w o), w).
Proof. reflexivity. Qed.

Lemma enumerations_app (l1 l2 : list event) :
  enumerations project (l1 ++ l2) = (enumerations project l1 + enumerations project l2)%nat.
Proof. unfold enumerations. by rewrite List.filter_app, List.length_app. Qed.

Lemma enumerations_gets (o : ref) (ts : list string) :
  o <> project ->
  enumerations project (map (fun t => EvGet o ("children-" +:+ t)) ts) = 0%nat.
Proof.
  intros Ho. induction ts as [|t ts IH]; [done|].
  unfold enumerations in *. cbn. apply String.eqb_neq in Ho. by rewrite Ho.
Qed.

Lemma other_types_no_ed (types : list string) :
  existsb (String.eqb "emulateddevice") (map lower types) = false ->
  other_types types = map lower types.
Proof.
  unfold other_types. generalize (map lower types). clear types.
  induction l as [|t l IH]; [done|].
  intros H. cbn [existsb] in H. apply orb_false_iff in H as [Ht Hl].
  cbn [List.filter]. rewrite String.eqb_sym in Ht. rewrite Ht. cbn [negb].
  f_equal. by apply IH.
Qed.

Lemma other_types_spec (types : list string) t :
  In t (other_types types) -> String.eqb (lower t) "emulateddevice" = false.
Proof.
  unfold other_types. intros [Hin Hne]%filter_In.
  apply in_map_iff in Hin as (t0 & <- & _). rewrite lower_idem.
  by apply negb_true_iff in Hne.
Qed.

Lemma ensure_project_devices_spec (w : world) :
  exists wa,
    ensure_project_devices remote_children device_port project w = (Ok tt, wa) /\
    (forall q x, In x (children_of w q) -> In x (children_of wa q)) /\
    (forall q x, In x (children_of wa q) ->
       In x (children_of w q) \/
       exists c, In c (remote_children project "emulateddevice") /\
         x = ("emulateddevice", c) /\ (q = project \/ q = device_port c)) /\
    enumerations project (w_log wa) = (enumerations project (w_log w) +
      match device_index w project with [] => 1 | _ => 0 end)%nat /\
    (device_index w project = [] ->
     forall c, In c (remote_children project "emulateddevice") ->
     exists t, In (t, c) (children_of wa project)).
Proof.
  unfold ensure_project_devices, mbind, M_bind. rewrite get_objects_by_type_ed.
  destruct (device_index w project) as [|d ds] eqn:Hidx.
  - destruct (base_get_children_spec project ["emulateddevice"] w)
      as (wa & Hb & Hlog & Hincl & Hin & Hhas).
    exists wa. rewrite Hb. split; [done|]. split; [done|]. split; [|split].
    + intros q x Hx. apply Hin in Hx as [Hx|(t & c & [<-|[]] & Hc & -> & Hq)];
        [by left|].
      right. exists c. split; [done|]. split; [done|].
      destruct Hq as [->|[_ ->]]; [by left|by right].
    + rewrite Hlog, enumerations_app. unfold enumerations at 2. cbn.
      rewrite !String.eqb_refl. cbn. lia.
    + intros _ c Hc. apply (Hhas "emulateddevice"); [by left|done].
  - exists w. split; [done|]. split; [done|]. split; [by left|]. split; [lia|].
    done.
Qed.

Lemma extend_children_spec (p : ref) (objs : list ref) (ts : list string) (w : world) :
  p <> project ->
  (forall t, In t ts -> String.eqb (lower t) "emulateddevice" = false) ->
  owned_inv device_port project w ->
  exists w',
    extend_children remote_children device_port p objs ts w
      = (Ok (objs ++ concat (map (remote_children p) ts)), w') /\
    owned_inv device_port project w' /\
    enumerations project (w_log w') = enumerations project (w_log w) /\
    (forall q x, In x (children_of w q) -> In x (children_of w' q)).
Proof.
  intros Hp Hts Hinv.
  destruct ts as [|t ts].
  - exists w. cbn. rewrite app_nil_r. done.
  - destruct (base_get_children_spec p (t :: ts) w)
      as (w' & Hb & Hlog & Hincl & Hin & _).
    exists w'. unfold extend_children, mbind, M_bind. rewrite Hb.
    split; [done|]. split; [|split].
    + eapply owned_inv_base; [exact Hinv| |exact Hin]. right. exact Hts.
    + rewrite Hlog, enumerations_app, enumerations_gets by done. lia.
    + exact Hincl.
Qed.

Lemma port_get_children_spec (p : ref) (types : list string) (w : world) :
  owned_inv device_port project w -> p <> project ->
  exists devs w',
    port_get_children remote_children device_port project p types w
      = (Ok (devs ++ concat (map (remote_children p) (other_types types))), w') /\
    (forall d, In d devs -> device_port d = p) /\
    owned_inv device_port project w' /\
    enumerations project (w_log w') = (enumerations project (w_log w) +
      (if existsb (String.eqb "emulateddevice") (map lower types)
       then match device_index w project with [] => 1 | _ => 0 end else 0))%nat /\
    (forall q x, In x (children_of w q) -> In x (children_of w' q)) /\
    (existsb (String.eqb "emulateddevice") (map lower types) = true ->
     (forall c t, In c (remote_children project "emulateddevice") ->
        In (t, c) (children_of w project) ->
        String.eqb (lower t) "emulateddevice" = true) ->
     device_index w project = [] ->
     forall c, In c (remote_children project "emulateddevice") ->
     In c (device_index w' project)).
Proof.
  intros Hinv Hp. unfold port_get_children. cbn zeta.
  destruct (existsb (String.eqb "emulateddevice") (map lower types)) eqn:E.
  - destruct (ensure_project_devices_spec w)
      as (wa & He & Hincl_a & Hin_a & Henum_a & Hhas_a).
    assert (Hinv_a : owned_inv device_port project wa).
    { intros q x Hq Hx Hed. apply Hin_a in Hx as [Hx|(c & _ & -> & [-> | ->])].
      - by apply Hinv.
      - done.
      - done. }
    destruct (extend_children_spec p (device_index wa p) (other_types types) wa)
      as (w' & Hx & Hinv' & Henum' & Hincl').
    { done. }
    { apply other_types_spec. }
    { done. }
    exists (device_index wa p), w'.
    unfold mbind, M_bind. rewrite He. rewrite get_objects_by_type_ed.
    split; [exact Hx|]. split; [|split; [done|split; [|split]]].
    + intros d Hd. unfold device_index in Hd.
      apply in_map_iff in Hd as ([t c] & <- & Hc).
      apply filter_In in Hc as [Hc Hed]. exact (Hinv_a p (t, c) Hp Hc Hed).
    + by rewrite Henum', Henum_a.
    + intros q x Hx'. by apply Hincl', Hincl_a.
    + intros _ Htyped Hidx c Hc.
      destruct (Hhas_a Hidx c Hc) as [t Ht].
      assert (Hed : String.eqb (lower t) "emulateddevice" = true).
      { apply Hin_a in Ht as [Ht|(c' & _ & Heq & _)].
        - exact (Htyped c t Hc Ht).
        - injection Heq as -> _. done. }
      unfold device_index. apply in_map_iff. exists (t, c). split; [done|].
      apply filter_In. split; [by apply Hincl'|done].
  - rewrite <- (other_types_no_ed types E).
    destruct (extend_children_spec p [] (other_types types) w)
      as (w' & Hx & Hinv' & Henum' & Hincl').
    { done. }
    { apply other_types_spec. }
    { done. }
    exists [], w'. split; [exact Hx|]. split; [done|]. split; [done|].
    split; [rewrite Henum'; lia|]. split; [done|]. discriminate.
Qed.

Lemma device_index_mono (w w' : world) (o : ref) :
  (forall x, In x (children_of w o) -> In x (children_of w' o)) ->
  device_index w o <> [] -> device_index w' o <> [].
Proof.
  intros Hincl Hne. destruct (device_index w o) as [|d ds] eqn:E; [done|].
  assert (Hd : In d (device_index w o)) by (rewrite E; by left).
  unfold device_index in Hd. apply in_map_iff in Hd as (x & <- & Hx).
  apply filter_In in Hx as [Hx Hed].
  intros E'. unfold device_index in E'.
  apply map_eq_nil in E'.
  assert (Hx' : In x (List.filter (fun c => String.eqb (lower c.1) "emulateddevice")
                        (children_of w' o))) by (apply filter_In; split; auto).
  rewrite E' in Hx'. done.
Qed.

Lemma device_index_incl (w w' : world) (o : ref) d :
  (forall x, In x (children_of w o) -> In x (children_of w' o)) ->
  In d (device_index w o) -> In d (device_index w' o).
Proof.
  intros Hincl Hd. unfold device_index in *.
  apply in_map_iff in Hd as (x & <- & Hx). apply filter_In in Hx as [Hx Hed].
  apply in_map_iff. exists x. split; [done|]. apply filter_In. auto.
Qed.

Lemma register_child_index (o : ref) (c : string * ref) (w : world) :
  (forall t, In (t, c.2) (children_of w o) ->
     String.eqb (lower t) "emulateddevice" = true) ->
  String.eqb (lower c.1) "emulateddevice" = true ->
  In c.2 (device_index (register_child o c w) o).
Proof.
  intros Htyped Hc. destruct (register_child_has o c w) as [t Ht].
  unfold device_index. apply in_map_iff. exists (t, c.2). split; [done|].
  apply filter_In. split; [done|]. cbn.
  apply register_child_in in Ht as [Ht|[_ Heq]].
  - by apply Htyped.
  - rewrite <- Heq in Hc. exact Hc.
Qed.

Lemma register_child_typed (cs : list ref) (o : ref) (c : string * ref) (w : world) :
  typed_on cs w -> String.eqb (lower c.1) "emulateddevice" = true ->
  typed_on cs (register_child o c w).
Proof.
  intros Htyped Hc q t x Hx Hin.
  apply register_child_in in Hin as [Hin|[_ Heq]].
  - exact (Htyped q t x Hx Hin).
  - rewrite <- Heq in Hc. exact Hc.
Qed.

Lemma register_all_index (o : ref) t cs : forall (w : world),
  String.eqb (lower t) "emulateddevice" = true -> typed_on cs w ->
  forall c, In c cs ->
    In c (device_index (register_all device_port o t cs w) o) /\
    In c (device_index (register_all device_port o t cs w) (device_port c)).
Proof.
  induction cs as [|c0 cs IH]; intros w Ht Htyped c Hc; [done|].
  cbn [register_all]. cbv zeta. rewrite Ht.
  set (w1 := register_child o (t, c0) w).
  set (w2 := register_child (device_port c0) (t, c0) w1).
  assert (Htyped1 : typed_on (c0 :: cs) w1) by (by apply register_child_typed).
  assert (Htyped2 : typed_on (c0 :: cs) w2) by (by apply register_child_typed).
  assert (Htyped2' : typed_on cs w2).
  { intros q t' x Hx. apply Htyped2. by right. }
  destruct Hc as [<-|Hc]; [|by apply IH].
  assert (Hincl : forall q x, In x (children_of w2 q) ->
            In x (children_of (register_all device_port o t cs w2) q))
    by (intros; by apply register_all_incl).
  split; apply (device_index_incl w2); try (intros; by apply Hincl).
  - apply (device_index_incl w1); [intros; by apply register_child_incl|].
    apply (register_child_index o (t, c0) w); [|done].
    intros t' Hin. exact (Htyped o t' c0 (or_introl eq_refl) Hin).
  - apply (register_child_index (device_port c0) (t, c0) w1); [|done].
    intros t' Hin. exact (Htyped1 _ t' c0 (or_introl eq_refl) Hin).
Qed.

Lemma ensure_project_devices_empty (w : world) :
  device_index w project = [] ->
  ensure_project_devices remote_children device_port project w
  = (Ok tt, register_all device_port project "emulateddevice"
              (remote_children project "emulateddevice")
              (log_ev (EvGet project "children-emulateddevice") w)).
Proof.
  intros Hidx. unfold ensure_project_devices, mbind, M_bind.
  rewrite get_objects_by_type_ed, Hidx. reflexivity.
Qed.

Lemma ensure_project_devices_populated (w : world) :
  device_index w project <> [] ->
  ensure_project_devices remote_children device_port project w = (Ok tt, w).
Proof.
  intros Hidx. unfold ensure_project_devices, mbind, M_bind.
  rewrite get_objects_by_type_ed.
  by destruct (device_index w project).
Qed.

Lemma extend_children_rev (p : ref) (objs : list ref) (ts : list string) (w : world) :
  exists w',
    extend_children remote_children device_port p objs ts w
      = (Ok (objs ++ concat (map (remote_children p) ts)), w') /\
    (forall q x, In x (children_of w' q) ->
       In x (children_of w q) \/
       exists t c, In t ts /\ x = (t, c) /\
         (q = p \/ (String.eqb (lower t) "emulateddevice" = true /\ q = device_port c))).
Proof.
  destruct ts as [|t ts].
  - exists w. cbn. rewrite app_nil_r. split; [done|]. by left.
  - destruct (base_get_children_spec p (t :: ts) w)
      as (w' & Hb & _ & _ & Hin & _).
    exists w'. unfold extend_children, mbind, M_bind. rewrite Hb.
    split; [done|]. intros q x Hx.
    apply Hin in Hx as [Hx|(t' & c & Ht' & _ & -> & Hq)]; [by left|].
    right. by exists t', c.
Qed.

Lemma port_get_children_detail (p : ref) (types : list string) (w : world) :
  owned_inv device_port project w -> p <> project ->
  let ed := existsb (String.eqb "emulateddevice") (map lower types) in
  exists devs w',
    port_get_children remote_children device_port project p types w
      = (Ok (devs ++ concat (map (remote_children p) (other_types types))), w') /\
    (forall d, In d devs -> device_port d = p) /\
    owned_inv device_port project w' /\
    enumerations project (w_log w') = (enumerations project (w_log w) +
      (if ed then match device_index w project with [] => 1 | _ => 0 end else 0))%nat /\
    (forall q x, In x (children_of w q) -> In x (children_of w' q)) /\
    (forall x, In x (children_of w' project) ->
       In x (children_of w project) \/
       exists c, In c (remote_children project "emulateddevice") /\
         x = ("emulateddevice", c)) /\
    (ed = false -> devs = []) /\
    (ed = true -> forall d, In d devs <-> In d (device_index w' p)) /\
    (ed = true -> device_index w project <> [] -> devs = device_index w p) /\
    (ed = true -> typed_inv remote_children project w -> device_index w project = [] ->
     forall c, In c (remote_children project "emulateddevice") ->
     In c (device_index w' project) /\ In c (device_index w' (device_port c))).
Proof.
  intros Hinv Hp ed. subst ed. unfold port_get_children. cbn zeta.
  destruct (existsb (String.eqb "emulateddevice") (map lower types)) eqn:E.
  - destruct (ensure_project_devices_spec w)
      as (wa & He & Hincl_a & Hin_a & Henum_a & _).
    assert (Hinv_a : owned_inv device_port project wa).
    { intros q x Hq Hx Hed. apply Hin_a in Hx as [Hx|(c & _ & -> & [-> | ->])].
      - by apply Hinv.
      - done.
      - done. }
    destruct (extend_children_spec p (device_index wa p) (other_types types) wa)
      as (w' & Hx & Hinv' & Henum' & Hincl').
    { done. }
    { apply other_types_spec. }
    { done. }
    destruct (extend_children_rev p (device_index wa p) (other_types types) wa)
      as (w'' & Hx' & Hrev).
    rewrite Hx in Hx'. injection Hx' as <-.
    assert (Hrev_ed : forall q t c, In (t, c) (children_of w' q) ->
              String.eqb (lower t) "emulateddevice" = true -> q = p \/ q = device_port c ->
              In (t, c) (children_of wa q)).
    { intros q t c Htc Hed Hq.
      apply Hrev in Htc as [Htc|(t' & c' & Ht' & Heq & _)]; [done|].
      injection Heq as -> ->. apply other_types_spec in Ht'. by rewrite Ht' in Hed. }
    exists (device_index wa p), w'.
    unfold mbind, M_bind. rewrite He. rewrite get_objects_by_type_ed.
    split; [exact Hx|].
    split; [|split; [done|split; [|split; [|split; [|split; [done|split; [|split]]]]]]].
    + intros d Hd. unfold device_index in Hd.
      apply in_map_iff in Hd as ([t c] & <- & Hc).
      apply filter_In in Hc as [Hc Hed]. exact (Hinv_a p (t, c) Hp Hc Hed).
    + by rewrite Henum', Henum_a.
    + intros q x Hx'. by apply Hincl', Hincl_a.
    + intros x Hx0. apply Hrev in Hx0 as [Hx0|(t & c & Ht & -> & [Hq|[Hed _]])].
      * apply Hin_a in Hx0 as [Hx0|(c & Hc & -> & _)]; [by left|].
        right. by exists c.
      * done.
      * apply other_types_spec in Ht. by rewrite Ht in Hed.
    + intros _ d. split; [apply device_index_incl; intros; by apply Hincl'|].
      unfold device_index. intros Hd.
      apply in_map_iff in Hd as ([t c] & <- & Hc).
      apply filter_In in Hc as [Hc Hed].
      apply in_map_iff. exists (t, c). split; [done|].
      apply filter_In. split; [|done]. apply Hrev_ed; [done|done|by left].
    + intros _ Hidx.
      rewrite (ensure_project_devices_populated w Hidx) in He.
      by injection He as <-.
    + intros _ Htyped Hidx c Hc.
      rewrite (ensure_project_devices_empty w Hidx) in He. injection He as <-.
      destruct (register_all_index project "emulateddevice"
                  (remote_children project "emulateddevice")
                  (log_ev (EvGet project "children-emulateddevice") w)
                  eq_refl Htyped c Hc) as [H1 H2].
      split; (eapply device_index_incl; [intros; by apply Hincl'|]); done.
  - rewrite <- (other_types_no_ed types E).
    destruct (extend_children_spec p [] (other_types types) w)
      as (w' & Hx & Hinv' & Henum' & Hincl').
    { done. }
    { apply other_types_spec. }
    { done. }
    destruct (extend_children_rev p [] (other_types types) w)
      as (w'' & Hx' & Hrev).
    rewrite Hx in Hx'. injection Hx' as <-.
    exists [], w'. split; [exact Hx|]. split; [done|]. split; [done|].
    split; [rewrite Henum'; lia|]. split; [done|].
    split; [|split; [done|split; [discriminate|split; discriminate]]].
    intros x Hx0. apply Hrev in Hx0 as [Hx0|(t & c & Ht & -> & [Hq|[Hed _]])];
      [by left|done|].
    apply other_types_spec in Ht. by rewrite Ht in Hed.
Qed.

(** C6 (as the code does it): each get_children on a port triggers the
    project's enumeration of emulated devices exactly when emulated devices
    are requested and the project's device index is empty at that moment.
    So, when the project has at least one emulated device, requests on two
    ports trigger it at most once; when it has none, each of the two
    requests enumerates again.  The emulated devices in a port's result are
    exactly those indexed under that port when the call returns, and all of
    them are owned by the port.  When the project's index was empty before
    the first call, they include every project device the port owns, for
    both ports (the index filled by the first call is reused by the second);
    when the index was already populated, it is not refreshed and the result
    is the port's index as it stood, which may miss devices the port owns.
    They are followed by the other requested types resolved by the base
    get_children. *)
Theorem port_get_children_shared_index (p1 p2 : ref)
  (types1 types2 : list string) (w : world)
  (Hinv : owned_inv device_port project w)
  (Hp1 : p1 <> project) (Hp2 : p2 <> project)
  (Htyped : typed_inv remote_children project w) :
  let ed1 := existsb (String.eqb "emulateddevice") (map lower types1) in
  let ed2 := existsb (String.eqb "emulateddevice") (map lower types2) in
  let devices := remote_children project "emulateddevice" in
  exists r1 w1 r2 w2 devs1 devs2,
    port_get_children remote_children device_port project p1 types1 w = (Ok r1, w1) /\
    port_get_children remote_children device_port project p2 types2 w1 = (Ok r2, w2) /\
    r1 = devs1 ++ concat (map (remote_children p1) (other_types types1)) /\
    r2 = devs2 ++ concat (map (remote_children p2) (other_types types2)) /\
    enumerations project (w_log w1) = (enumerations project (w_log w) +
      (if ed1 then match device_index w project with [] => 1 | _ => 0 end else 0))%nat /\
    enumerations project (w_log w2) = (enumerations project (w_log w1) +
      (if ed2 then match device_index w1 project with [] => 1 | _ => 0 end else 0))%nat /\
    (devices <> [] ->
     (enumerations project (w_log w2) <= enumerations project (w_log w) + 1)%nat) /\
    (devices = [] -> device_index w project = [] -> ed1 = true -> ed2 = true ->
     enumerations project (w_log w2) = (enumerations project (w_log w) + 2)%nat) /\
    (forall d, In d devs1 -> device_port d = p1) /\
    (forall d, In d devs2 -> device_port d = p2) /\
    (ed1 = false -> devs1 = []) /\
    (ed2 = false -> devs2 = []) /\
    (ed1 = true -> forall d, In d devs1 <-> In d (device_index w1 p1)) /\
    (ed2 = true -> forall d, In d devs2 <-> In d (device_index w2 p2)) /\
    (ed1 = true -> device_index w project <> [] -> devs1 = device_index w p1) /\
    (ed2 = true -> device_index w1 project <> [] -> devs2 = device_index w1 p2) /\
    (ed1 = true -> device_index w project = [] ->
     forall d, In d devices -> device_port d = p1 -> In d devs1) /\
    (ed1 = true -> device_index w project = [] -> ed2 = true ->
     forall d, In d devices -> device_port d = p2 -> In d devs2).
Proof.
  cbn zeta.
  destruct (port_get_children_detail p1 types1 w Hinv Hp1)
    as (devs1 & w1 & H1 & Hown1 & Hinv1 & Henum1 & Hincl1 & Hrev1 & Hnil1 & Hidx1
        & Hstale1 & Hfull1).
  destruct (port_get_children_detail p2 types2 w1 Hinv1 Hp2)
    as (devs2 & w2 & H2 & Hown2 & _ & Henum2 & Hincl2 & _ & Hnil2 & Hidx2
        & Hstale2 & _).
  exists (devs1 ++ concat (map (remote_children p1) (other_types types1))), w1,
    (devs2 ++ concat (map (remote_children p2) (other_types types2))), w2, devs1, devs2.
  split; [exact H1|]. split; [exact H2|]. split; [done|]. split; [done|].
  split; [exact Henum1|]. split; [exact Henum2|].
  assert (Hne1 : device_index w project <> [] -> device_index w1 project <> []).
  { apply device_index_mono. intros x. apply Hincl1. }
  split; [|split; [|split; [done|split; [done|split; [done|split; [done|
    split; [done|split; [done|split; [done|split; [done|split]]]]]]]]]].
  - intros Hdev. rewrite Henum2, Henum1.
    destruct (existsb _ (map lower types1)) eqn:E1;
      destruct (existsb _ (map lower types2)) eqn:E2;
      destruct (device_index w project) as [|d ds] eqn:Hw; try lia.
    all: destruct (device_index w1 project) as [|d1 ds1] eqn:Hw1; try lia.
    all: exfalso; try (by apply Hne1).
    destruct (remote_children project "emulateddevice") as [|c cs] eqn:Hrc; [done|].
    destruct (Hfull1 eq_refl Htyped eq_refl c) as [Hc _]; [by left|].
    by rewrite ?Hw1 in Hc.
  - intros Hdev Hidx E1 E2. rewrite Henum2, Henum1, E1, E2, Hidx.
    assert (Hw1 : device_index w1 project = []).
    { destruct (device_index w1 project) as [|d ds] eqn:Hw1; [done|].
      assert (Hd : In d (device_index w1 project)) by (rewrite Hw1; by left).
      unfold device_index in Hd. apply in_map_iff in Hd as (x & <- & Hx).
      apply filter_In in Hx as [Hx Hed].
      apply Hrev1 in Hx as [Hx|(c & Hc & _)]; [|by rewrite Hdev in Hc].
      assert (Hd : In x.2 (device_index w project)).
      { unfold device_index. apply in_map_iff. exists x. split; [done|].
        by apply filter_In. }
      by rewrite Hidx in Hd. }
    rewrite Hw1. lia.
  - intros E1 Hidx d Hd Hpd. apply (proj2 (Hidx1 E1 d)).
    rewrite <- Hpd. exact (proj2 (Hfull1 E1 Htyped Hidx d Hd)).
  - intros E1 Hidx E2 d Hd Hpd. apply (proj2 (Hidx2 E2 d)).
    apply (device_index_incl w1); [intros; by apply Hincl2|].
    rewrite <- Hpd. exact (proj2 (Hfull1 E1 Htyped Hidx d Hd)).
Qed.

End Proofs.

(** * Runs on the concrete session *)

(** C1 at T = 5 on bound_world: LinkStatus is DOWN at attempt 1 and UP at
    attempt 2, so the call returns after two polls and one sleep. *)
Lemma wait_for_states_polls_witness :
  w_activephy bound_world !! "p1" = Some "phy1" /\ (1 <= 5)%Z /\
  wait_for_states demo_remote "p1" (Some 5%Z) ["UP"] bound_world
  = (Ok tt, adv bound_world (poll_log "phy1" 1 ++ [EvGet "phy1" "LinkStatus"]) 1).
Proof.
  split; [reflexivity|]. split; [lia|].
  apply (proj1 (wait_for_states_polls demo_remote "p1" "phy1" 5%Z ["UP"]
                  bound_world eq_refl ltac:(lia)) 2%nat).
  - vm_compute. lia.
  - intros i Hi. replace i with 1%nat by lia. vm_compute. intros [H|[]]. discriminate H.
  - vm_compute. left. reflexivity.
Defined.

(** C2 at the counterexample's input (an empty location, resolved to the
    remote 'localhost') and at a non-local location given as argument. *)
Lemma reserve_resolves_then_attaches_witness :
  read_at demo_remote empty_world 0 "p1" "Location" = "localhost" /\
  demo_local_host "localhost" = true /\
  (exists L pre w1,
    resolution demo_remote "p1" (Some "") empty_world L pre /\
    (if demo_local_host L then
       reserve demo_remote demo_attr_names demo_local_host "p1" (Some "") false true
         (Some 40%Z) empty_world = (Ok tt, w1) /\
       w_log w1 = w_log empty_world ++ pre /\
       w_activephy w1 = w_activephy empty_world
     else
       reserve demo_remote demo_attr_names demo_local_host "p1" (Some "") false true
         (Some 40%Z) empty_world
         = wait_for_states demo_remote "p1" (Some 40%Z) ["UP"] w1 /\
       w_log w1 = w_log empty_world ++ pre ++
         [EvPerform "AttachPorts" [("PortList", VStr "p1"); ("AutoConnect", VBool true);
                                   ("RevokeOwner", VBool false)];
          EvApply; EvGet "p1" "activephy-Targets";
          EvGetAll (read_at demo_remote empty_world (w_clock empty_world) "p1"
                      "activephy-Targets")] /\
       w_activephy w1 !! "p1" = Some (read_at demo_remote empty_world (w_clock empty_world)
                                       "p1" "activephy-Targets")) /\
    w_location w1 !! "p1" = Some L /\
    w_clock w1 = w_clock empty_world) /\
  demo_local_host "10.0.0.1/1/1" = false /\
  (exists L pre w1,
    resolution demo_remote "p1" (Some "10.0.0.1/1/1") empty_world L pre /\
    (if demo_local_host L then
       reserve demo_remote demo_attr_names demo_local_host "p1" (Some "10.0.0.1/1/1")
         false true (Some 5%Z) empty_world = (Ok tt, w1) /\
       w_log w1 = w_log empty_world ++ pre /\
       w_activephy w1 = w_activephy empty_world
     else
       reserve demo_remote demo_attr_names demo_local_host "p1" (Some "10.0.0.1/1/1")
         false true (Some 5%Z) empty_world
         = wait_for_states demo_remote "p1" (Some 5%Z) ["UP"] w1 /\
       w_log w1 = w_log empty_world ++ pre ++
         [EvPerform "AttachPorts" [("PortList", VStr "p1"); ("AutoConnect", VBool true);
                                   ("RevokeOwner", VBool false)];
          EvApply; EvGet "p1" "activephy-Targets";
          EvGetAll (read_at demo_remote empty_world (w_clock empty_world) "p1"
                      "activephy-Targets")] /\
       w_activephy w1 !! "p1" = Some (read_at demo_remote empty_world (w_clock empty_world)
                                       "p1" "activephy-Targets")) /\
    w_location w1 !! "p1" = Some L /\
    w_clock w1 = w_clock empty_world).
Proof.
  split; [reflexivity|]. split; [reflexivity|].
  split; [exact (reserve_resolves_then_attaches demo_remote demo_attr_names demo_local_host
                   "p1" (Some "") false true (Some 40%Z) empty_world)|].
  split; [reflexivity|].
  exact (reserve_resolves_then_attaches demo_remote demo_attr_names demo_local_host
           "p1" (Some "10.0.0.1/1/1") false true (Some 5%Z) empty_world).
Defined.

(** C3 with no location argument: the remote Location is localhost. *)
Lemma reserve_local_no_attach_witness :
  resolution demo_remote "p1" None empty_world "localhost" [EvGet "p1" "Location"] /\
  demo_local_host "localhost" = true /\
  exists w1,
    reserve demo_remote demo_attr_names demo_local_host "p1" None false true
      (Some 40%Z) empty_world = (Ok tt, w1) /\
    w_log w1 = w_log empty_world ++ [EvGet "p1" "Location"] /\
    w_activephy w1 = w_activephy empty_world /\
    (w_activephy empty_world !! "p1" = None -> w_activephy w1 !! "p1" = None) /\
    w_location w1 !! "p1" = Some "localhost".
Proof.
  assert (Hres : resolution demo_remote "p1" None empty_world "localhost"
                   [EvGet "p1" "Location"]).
  { right. split; [left; reflexivity|]. split; reflexivity. }
  split; [exact Hres|]. split; [reflexivity|].
  exact (reserve_local_no_attach demo_remote demo_attr_names demo_local_host "p1"
           None false true (Some 40%Z) empty_world "localhost"
           [EvGet "p1" "Location"] Hres eq_refl).
Defined.

(** C4 on a fresh port. *)
Lemma unbound_activephy_none_deref_witness :
  w_activephy empty_world !! "p1" = None /\
  is_online demo_remote "p1" empty_world
    = (Err (AttributeError_None "get_attribute"), empty_world) /\
  wait_for_states demo_remote "p1" (Some 40%Z) ["UP"] empty_world
    = (Err (AttributeError_None "get_attribute"), empty_world).
Proof.
  split; [reflexivity|].
  destruct (unbound_activephy_none_deref demo_remote "p1" empty_world eq_refl)
    as [H1 H2].
  split; [exact H1|]. apply H2. lia.
Defined.

(** C9 on bound_world at second 0, where phy1 reports DOWN. *)
Lemma is_online_iff_up_witness :
  w_activephy bound_world !! "p1" = Some "phy1" /\
  is_online demo_remote "p1" bound_world
  = (Ok (ci_eq (read_at demo_remote bound_world (w_clock bound_world) "phy1"
                  "LinkStatus") "up"),
     log_ev (EvGet "phy1" "LinkStatus") bound_world).
Proof.
  split; [reflexivity|].
  exact (is_online_iff_up demo_remote "p1" "phy1" bound_world eq_refl).
Defined.

(** C6 on the demo project (devices d1 of p1 and d2 of p2) from an empty
    index: p1 asks for emulated devices, then p2 for emulated devices and
    stream blocks. *)
Lemma port_get_children_shared_index_witness :
  owned_inv demo_device_port "proj" empty_world /\
  "p1" <> "proj" /\ "p2" <> "proj" /\
  typed_inv demo_children "proj" empty_world /\
  let ed1 := existsb (String.eqb "emulateddevice") (map lower ["EmulatedDevice"]) in
  let ed2 := existsb (String.eqb "emulateddevice")
               (map lower ["EmulatedDevice"; "StreamBlock"]) in
  let devices := demo_children "proj" "emulateddevice" in
  exists r1 w1 r2 w2 devs1 devs2,
    port_get_children demo_children demo_device_port "proj" "p1"
      ["EmulatedDevice"] empty_world = (Ok r1, w1) /\
    port_get_children demo_children demo_device_port "proj" "p2"
      ["EmulatedDevice"; "StreamBlock"] w1 = (Ok r2, w2) /\
    r1 = devs1 ++ concat (map (demo_children "p1") (other_types ["EmulatedDevice"])) /\
    r2 = devs2 ++ concat (map (demo_children "p2")
                            (other_types ["EmulatedDevice"; "StreamBlock"])) /\
    enumerations "proj" (w_log w1) = (enumerations "proj" (w_log empty_world) +
      (if ed1 then match device_index empty_world "proj" with [] => 1 | _ => 0 end
       else 0))%nat /\
    enumerations "proj" (w_log w2) = (enumerations "proj" (w_log w1) +
      (if ed2 then match device_index w1 "proj" with [] => 1 | _ => 0 end else 0))%nat /\
    (devices <> [] ->
     (enumerations "proj" (w_log w2) <= enumerations "proj" (w_log empty_world) + 1)%nat) /\
    (devices = [] -> device_index empty_world "proj" = [] -> ed1 = true -> ed2 = true ->
     enumerations "proj" (w_log w2) = (enumerations "proj" (w_log empty_world) + 2)%nat) /\
    (forall d, In d devs1 -> demo_device_port d = "p1") /\
    (forall d, In d devs2 -> demo_device_port d = "p2") /\
    (ed1 = false -> devs1 = []) /\
    (ed2 = false -> devs2 = []) /\
    (ed1 = true -> forall d, In d devs1 <-> In d (device_index w1 "p1")) /\
    (ed2 = true -> forall d, In d devs2 <-> In d (device_index w2 "p2")) /\
    (ed1 = true -> device_index empty_world "proj" <> [] ->
     devs1 = device_index empty_world "p1") /\
    (ed2 = true -> device_index w1 "proj" <> [] -> devs2 = device_index w1 "p2") /\
    (ed1 = true -> device_index empty_world "proj" = [] ->
     forall d, In d devices -> demo_device_port d = "p1" -> In d devs1) /\
    (ed1 = true -> device_index empty_world "proj" = [] -> ed2 = true ->
     forall d, In d devices -> demo_device_port d = "p2" -> In d devs2).
Proof.
  assert (Hinv : owned_inv demo_device_port "proj" empty_world).
  { intros q c _ []. }
  assert (Htyped : typed_inv demo_children "proj" empty_world).
  { intros q t c _ []. }
  assert (Hp1 : "p1" <> "proj") by discriminate.
  assert (Hp2 : "p2" <> "proj") by discriminate.
  split; [exact Hinv|]. split; [exact Hp1|]. split; [exact Hp2|].
  split; [exact Htyped|].
  exact (port_get_children_shared_index demo_children demo_device_port "proj"
           "p1" "p2" ["EmulatedDevice"] ["EmulatedDevice"; "StreamBlock"]
           empty_world Hinv Hp1 Hp2 Htyped).
Defined.

(** * Counterexamples *)

(** C2: an empty location argument is falsy: reserve reads the remote
    Location and adopts it instead of writing the given location. *)
Lemma reserve_empty_location_reads_remote :
  exists w1,
    reserve demo_remote demo_attr_names demo_local_host "p1" (Some "") false true
      (Some 40%Z) empty_world = (Ok tt, w1) /\
    w_log w1 = [EvGet "p1" "Location"] /\
    w_location w1 !! "p1" = Some "localhost" /\
    w_location w1 !! "p1" <> Some "".
Proof.
  eexists. split; [reflexivity|]. split; [reflexivity|].
  split; [reflexivity|]. vm_compute. discriminate.
Qed.

(** C4: on a fresh port is_online dereferences the unbound activephy and
    fails with Python's AttributeError on None, not a precondition error. *)
Lemma is_online_unbound_attribute_error :
  is_online demo_remote "p1" empty_world
  = (Err (AttributeError_None "get_attribute"), empty_world).
Proof. reflexivity. Qed.

(** C6: in a project without emulated devices the index stays empty, so two
    ports requesting them enumerate the project twice. *)
Lemma port_get_children_enumerates_twice :
  exists r1 w1 r2 w2,
    port_get_children no_children (fun d => d) "proj" "p1" ["EmulatedDevice"]
      empty_world = (Ok r1, w1) /\
    port_get_children no_children (fun d => d) "proj" "p2" ["EmulatedDevice"]
      w1 = (Ok r2, w2) /\
    enumerations "proj" (w_log w2) = 2%nat.
Proof.
  do 4 eexists. split; [reflexivity|]. split; reflexivity.
Qed.

(** C7: the strip is not idempotent: a Name with the suffix twice reads as
    "Port1 (offline)", and stripping that again gives "Port1". *)
Lemma get_name_not_idempotent :
  get_name demo_remote "p1" empty_world
    = (Ok "Port1 (offline)", log_ev (EvGet "p1" "Name") empty_world) /\
  re_sub_offline "Port1 (offline)" = "Port1" /\
  re_sub_offline (re_sub_offline "Port1 (offline) (offline)")
    <> re_sub_offline "Port1 (offline) (offline)".
Proof.
  split; [reflexivity|]. split; [reflexivity|]. vm_compute. discriminate.
Qed.

(** C8: get_attribute on the generator is not forwarded: is_running reads
    the generator's own state (RUNNING) while its config says STOPPED. *)
Lemma generator_get_attribute_not_forwarded :
  fst (obj_get_attribute demo_remote (StcGen "gen" "cfg") "state" empty_world)
    = Ok "RUNNING" /\
  fst (obj_get_attribute demo_remote (StcObj "cfg") "state" empty_world)
    = Ok "STOPPED" /\
  fst (is_running demo_remote (StcGen "gen" "cfg") empty_world) = Ok true.
Proof. split; [reflexivity|]. split; reflexivity. Qed.

(** * Further properties of the port's lifecycle *)

Section Lifecycle_proofs.

Variable remote_at : nat -> ref -> attr -> string.
Variable remote_children : ref -> string -> list ref.
Variable device_port : ref -> ref.
Variable attr_names : ref -> list attr.
Variable project : ref.
Variable is_local_host : string -> bool.
Variable remote_type : ref -> string.
Variable none_local : res bool.

(** Reading activephy-Targets is unaffected by the port's location write. *)
Ltac norm_target_read_lc :=
  match goal with
  | |- context [read_at ?ra ?w' ?n ?p "activephy-Targets"] =>
      lazymatch w' with
      | {| w_clock := _ |} => fail
      | _ => idtac
      end;
      let w0 := match goal with w0 : world |- _ => w0 end in
      assert (HX : read_at ra w' n p "activephy-Targets"
                   = read_at ra w0 n p "activephy-Targets")
        by (unfold read_at; cbn;
            rewrite ?lookup_insert_ne by (intros [=]; congruence); done);
      rewrite HX; clear HX
  end.

(** The part of reserve before the wait, on a non-local location. *)
Lemma reserve_nonlocal_run (p : ref) (location : option string) (force : bool)
  (w : world) (L : string) (pre : list event) :
  resolution remote_at p location w L pre -> is_local_host L = false ->
  let phy := read_at remote_at w (w_clock w) p "activephy-Targets" in
  exists w1,
    (forall wait_for_up timeout,
       reserve remote_at attr_names is_local_host p location force wait_for_up timeout w
       = (if wait_for_up then wait_for_states remote_at p timeout ["UP"] w1
          else (Ok tt, w1))) /\
    w_log w1 = w_log w ++ pre ++
      [EvPerform "AttachPorts" [("PortList", VStr p); ("AutoConnect", VBool true);
                                ("RevokeOwner", VBool force)];
       EvApply; EvGet p "activephy-Targets"; EvGetAll phy] /\
    w_location w1 !! p = Some L /\
    w_activephy w1 !! p = Some phy /\
    w_clock w1 = w_clock w /\
    (forall n r, read_at remote_at w1 n r "LinkStatus" = read_at remote_at w n r "LinkStatus").
Proof.
  intros Hres Hnl. cbn zeta.
  destruct Hres as [(l & -> & Hl & -> & ->) | ([-> | ->] & -> & ->)];
    [apply String.eqb_neq in Hl|..];
    unfold reserve, mbind, M_bind, mret, M_ret; rewrite ?Hl;
    cbn -[wait_for_states read_at]; rewrite Hnl; cbn -[wait_for_states read_at];
    norm_target_read_lc;
    (eexists; split; [intros [] timeout; reflexivity|]);
    cbn; rewrite <- !app_assoc;
    (split; [done|]); (split; [apply lookup_insert_eq|]);
    (split; [apply lookup_insert_eq|]); (split; [done|]);
    intros n r; unfold read_at; cbn;
    rewrite ?lookup_insert_ne by (intros [=]; congruence); done.
Qed.


(** reserve on a local location. *)
Lemma reserve_local_run (p : ref) (location : option string) (force wait_for_up : bool)
  (timeout : option Z) (w : world) (L : string) (pre : list event) :
  resolution remote_at p location w L pre -> is_local_host L = true ->
  exists w1,
    reserve remote_at attr_names is_local_host p location force wait_for_up timeout w
      = (Ok tt, w1) /\
    w_location w1 !! p = Some L /\ w_activephy w1 = w_activephy w.
Proof.
  intros Hres Hl.
  destruct Hres as [(l & -> & Hne & -> & ->) | ([-> | ->] & -> & ->)];
    [apply String.eqb_neq in Hne|..];
    unfold reserve, mbind, M_bind, mret, M_ret; rewrite ?Hne;
    cbn -[read_at]; rewrite Hl; cbn -[read_at];
    (eexists; split; [reflexivity|]); cbn;
    (split; [apply lookup_insert_eq|done]).
Qed.

(** The polling loop only logs, reads and sleeps: it binds and stores
    nothing. *)
Lemma wfs_loop_frame (p : ref) (states : list string) :
  forall n ls0 (w : world),
  w_location (snd (wfs_loop remote_at p states n ls0 w)) = w_location w /\
  w_activephy (snd (wfs_loop remote_at p states n ls0 w)) = w_activephy w.
Proof.
  induction n as [|n IH]; intros ls0 w; [done|].
  cbn. unfold mbind, M_bind, deref_activephy.
  destruct (w_activephy w !! p) as [r|]; [|done].
  unfold get_attribute. cbn.
  destruct (existsb _ states); [done|].
  unfold sleep1. cbn. destruct (IH (Some (read_at remote_at w (w_clock w) r "LinkStatus"))
    (tick (log_ev EvSleep (log_ev (EvGet r "LinkStatus") w)))) as [H1 H2].
  split; [rewrite H1|rewrite H2]; done.
Qed.

Lemma wait_for_states_frame (p : ref) (timeout : option Z) (states : list string)
  (w : world) :
  w_location (snd (wait_for_states remote_at p timeout states w)) = w_location w /\
  w_activephy (snd (wait_for_states remote_at p timeout states w)) = w_activephy w.
Proof.
  destruct timeout as [t|]; [|done]. cbn. unfold mbind, M_bind.
  destruct (wfs_loop_frame p states (Z.to_nat t) None w) as [H1 H2].
  destruct (wfs_loop remote_at p states (Z.to_nat t) None w) as [[e|e] w'] eqn:E;
    cbn in *; [destruct e as [|[ls|]]|]; cbn; split; done.
Qed.


(** ** wait_for_states without a usable budget *)

(** X1: wait_for_states with [timeout=None] fails with TypeError (from
    [range(None)]), and with a budget [T <= 0] fails with UnboundLocalError
    on [link_state]; in both cases without any remote call, whether or not
    the port's activephy is bound. *)
Theorem wait_for_states_no_budget (p : ref) (states : list string) (w : world) :
  wait_for_states remote_at p None states w = (Err TypeError_None, w) /\
  (forall T, (T <= 0)%Z ->
     wait_for_states remote_at p (Some T) states w
     = (Err (UnboundLocalError "link_state"), w)).
Proof.
  split; [done|]. intros T HT. cbn. unfold mbind, M_bind.
  replace (Z.to_nat T) with 0%nat by lia. done.
Qed.

(** ** reserve followed by the wait *)

Lemma wfs_nonpos (p : ref) (states : list string) (T : Z) (w : world) :
  (T <= 0)%Z ->
  wait_for_states remote_at p (Some T) states w = (Err (UnboundLocalError "link_state"), w).
Proof.
  intros HT. cbn. unfold mbind, M_bind. replace (Z.to_nat T) with 0%nat by lia. done.
Qed.

(** X2: a reserve on a non-local location that waits for the link with
    [timeout=None] or a budget [T <= 0] attaches the port, applies, binds
    and loads the activephy, and only then fails (TypeError, respectively
    UnboundLocalError): the port is left reserved and bound. *)
Theorem reserve_without_budget_fails_after_attach (p : ref)
  (location : option string) (force : bool) (w : world) (L : string)
  (pre : list event)
  (Hres : resolution remote_at p location w L pre) (Hnl : is_local_host L = false) :
  let phy := read_at remote_at w (w_clock w) p "activephy-Targets" in
  exists w1,
    w_log w1 = w_log w ++ pre ++
      [EvPerform "AttachPorts" [("PortList", VStr p); ("AutoConnect", VBool true);
                                ("RevokeOwner", VBool force)];
       EvApply; EvGet p "activephy-Targets"; EvGetAll phy] /\
    w_activephy w1 !! p = Some phy /\
    reserve remote_at attr_names is_local_host p location force true None w
      = (Err TypeError_None, w1) /\
    (forall T, (T <= 0)%Z ->
       reserve remote_at attr_names is_local_host p location force true (Some T) w
       = (Err (UnboundLocalError "link_state"), w1)).
Proof.
  cbn zeta.
  destruct (reserve_nonlocal_run p location force w L pre Hres Hnl)
    as (w1 & Hrun & Hlog & _ & Hphy & _ & _).
  exists w1. split; [exact Hlog|]. split; [exact Hphy|]. split.
  - rewrite Hrun. done.
  - intros T HT. rewrite Hrun. by apply wfs_nonpos.
Qed.

(** X3: a reserve on a non-local location with [wait_for_up] and a budget
    [T >= 1], whose activephy's LinkStatus first reads UP at attempt
    [k <= T], returns normally after exactly [k] polls and [k - 1]
    one-second sleeps, and is_online then holds. *)
Theorem reserve_then_online (p : ref) (location : option string) (force : bool)
  (T : Z) (w : world) (L : string) (pre : list event) (phy : ref) (k : nat)
  (Hres : resolution remote_at p location w L pre) (Hnl : is_local_host L = false)
  (Hphy : phy = read_at remote_at w (w_clock w) p "activephy-Targets")
  (HT : (1 <= T)%Z) (Hk : (1 <= k <= Z.to_nat T)%nat)
  (Hmiss : forall i, (1 <= i < k)%nat -> attempt_val remote_at w phy i <> "UP")
  (Hhit : attempt_val remote_at w phy k = "UP") :
  exists w2,
    reserve remote_at attr_names is_local_host p location force true (Some T) w
      = (Ok tt, w2) /\
    w_log w2 = w_log w ++ pre ++
      [EvPerform "AttachPorts" [("PortList", VStr p); ("AutoConnect", VBool true);
                                ("RevokeOwner", VBool force)];
       EvApply; EvGet p "activephy-Targets"; EvGetAll phy] ++
      poll_log phy (k - 1) ++ [EvGet phy "LinkStatus"] /\
    w_clock w2 = (w_clock w + (k - 1))%nat /\
    fst (is_online remote_at p w2) = Ok true.
Proof.
  destruct (reserve_nonlocal_run p location force w L pre Hres Hnl)
    as (w1 & Hrun & Hlog & _ & Hact & Hclk & Hread).
  cbn zeta in *. rewrite <- Hphy in Hlog, Hact.
  assert (Hw : wait_for_states remote_at p (Some T) ["UP"] w1
               = (Ok tt, adv w1 (poll_log phy (k - 1) ++ [EvGet phy "LinkStatus"]) (k - 1))).
  { cbn. unfold mbind, M_bind.
    rewrite (wfs_loop_hit remote_at p phy ["UP"] (k - 1)).
    - done.
    - exact Hact.
    - lia.
    - intros i Hi. rewrite Hread, Hclk. intros [Hin|[]].
      apply (Hmiss (S i)); [lia|]. unfold attempt_val. cbn [pred]. by rewrite Hin.
    - rewrite Hread, Hclk. left.
      unfold attempt_val in Hhit. replace (k - 1)%nat with (pred k) by lia.
      by rewrite Hhit. }
  eexists. rewrite Hrun, Hw. split; [reflexivity|].
  split; [cbn; rewrite Hlog; by rewrite <- !app_assoc|].
  split; [cbn; rewrite Hclk; done|].
  unfold is_online, mbind, M_bind, deref_activephy.
  assert (Ha : w_activephy (adv w1 (poll_log phy (k - 1) ++ [EvGet phy "LinkStatus"])
                              (k - 1)) !! p = Some phy) by exact Hact.
  rewrite Ha. unfold get_attribute. cbn [fst].
  rewrite read_at_adv. cbn [w_clock adv]. rewrite Hread, Hclk.
  unfold attempt_val in Hhit. replace (w_clock w + (k - 1))%nat with (w_clock w + pred k)%nat
    by lia. rewrite Hhit. reflexivity.
Qed.

(** ** release *)

(** X4: after a successful reserve that resolved the location [L], release
    issues one ReleasePort request on the port exactly when [L] is not
    local, and nothing else; it leaves the activephy bound, and a second
    release issues the request again (no guard against a double release). *)
Theorem reserve_then_release (p : ref) (location : option string)
  (force wait_for_up : bool) (timeout : option Z) (w w1 : world) (L : string)
  (pre : list event)
  (Hres : resolution remote_at p location w L pre)
  (Hrun : reserve remote_at attr_names is_local_host p location force wait_for_up
            timeout w = (Ok tt, w1)) :
  let R := EvPerform "ReleasePort" [("portList", VStr p)] in
  let w2 := if is_local_host L then w1 else log_ev R w1 in
  release is_local_host none_local p w1 = (Ok tt, w2) /\
  release is_local_host none_local p w2
    = (Ok tt, if is_local_host L then w2 else log_ev R w2) /\
  w_activephy w2 = w_activephy w1.
Proof.
  assert (Hloc : w_location w1 !! p = Some L).
  { destruct (is_local_host L) eqn:Hl.
    - destruct (reserve_local_run p location force wait_for_up timeout w L pre Hres Hl)
        as (w1' & Hr & Hloc & _).
      rewrite Hrun in Hr. injection Hr as ->. exact Hloc.
    - destruct (reserve_nonlocal_run p location force w L pre Hres Hl)
        as (w0 & Hr & _ & Hloc & _).
      rewrite Hr in Hrun. destruct wait_for_up.
      + destruct (wait_for_states_frame p timeout ["UP"] w0) as [Hf _].
        rewrite Hrun in Hf. cbn in Hf. by rewrite Hf.
      + injection Hrun as <-. exact Hloc. }
  cbn zeta. unfold release, mbind, M_bind, location_is_local.
  rewrite Hloc. destruct (is_local_host L) eqn:Hl; cbn.
  - rewrite Hloc, Hl. done.
  - unfold perform. cbn. rewrite Hloc, Hl. done.
Qed.

(** ** set_media_type *)

(** X5: set_media_type on a port with no activephy bound fails with
    Python's AttributeError on None without any remote call; when the bound
    activephy already has the requested type, it does nothing. *)
Theorem set_media_type_unbound_or_same (p : ref) (media_type : string) (w : world) :
  (w_activephy w !! p = None ->
   set_media_type remote_type p media_type w = (Err (AttributeError_None "obj_type"), w)) /\
  (forall phy, w_activephy w !! p = Some phy ->
   obj_type_of remote_type w p phy = media_type ->
   set_media_type remote_type p media_type w = (Ok tt, w)).
Proof.
  split.
  - intros Hn. unfold set_media_type, mbind, M_bind, deref_activephy. by rewrite Hn.
  - intros phy Hphy Ht. unfold set_media_type, mbind, M_bind, deref_activephy.
    rewrite Hphy. unfold obj_type. rewrite Ht, String.eqb_refl. done.
Qed.

Lemma find_app_none {A} (f : A -> bool) (l1 l2 : list A) :
  List.find f l1 = None -> List.find f (l1 ++ l2) = List.find f l2.
Proof.
  induction l1 as [|x l1 IH]; cbn; [done|].
  destruct (f x); [discriminate|exact IH].
Qed.

(** X6: set_media_type with a type other than the bound activephy's creates
    one new object of that type under the port (the old one stays indexed,
    abandoned), writes and applies the port's ActivePhy target to it, and
    rebinds the activephy to it; calling it again with the same type then
    does nothing. *)
Theorem set_media_type_switch (p : ref) (media_type : string) (w : world) (phy : ref)
  (Hphy : w_activephy w !! p = Some phy)
  (Hne : obj_type_of remote_type w p phy <> media_type)
  (Hfresh : ~ In (media_type +:+ pretty (N.of_nat (w_fresh w)))
                 (map snd (children_of w p))) :
  let new_phy := media_type +:+ pretty (N.of_nat (w_fresh w)) in
  exists w1,
    set_media_type remote_type p media_type w = (Ok tt, w1) /\
    w_log w1 = w_log w ++ [EvCreate media_type p new_phy;
                           EvConfig p [("ActivePhy-targets", new_phy)]; EvApply] /\
    children_of w1 p = children_of w p ++ [(media_type, new_phy)] /\
    read_at remote_at w1 (w_clock w1) p "ActivePhy-targets" = new_phy /\
    w_activephy w1 !! p = Some new_phy /\
    set_media_type remote_type p media_type w1 = (Ok tt, w1).
Proof.
  cbn zeta. set (np := media_type +:+ pretty (N.of_nat (w_fresh w))).
  unfold set_media_type at 1, mbind, M_bind, deref_activephy. rewrite Hphy.
  unfold obj_type. apply String.eqb_neq in Hne. rewrite String.eqb_sym, Hne. cbn [negb].
  eexists. split; [reflexivity|].
  split; [cbn; rewrite <- !app_assoc; reflexivity|].
  split; [unfold children_of; cbn; rewrite lookup_insert_eq; done|].
  split; [unfold read_at; cbn; by rewrite lookup_insert_eq|].
  split; [cbn; apply lookup_insert_eq|].
  unfold set_media_type, mbind, M_bind, deref_activephy. cbn [w_activephy].
  rewrite lookup_insert_eq. unfold obj_type, obj_type_of.
  unfold children_of at 1. cbn -[List.find pretty]. rewrite lookup_insert_eq. cbn [default].
  assert (Hnone : List.find (fun c : string * ref => String.eqb c.2 np) (children_of w p) = None).
  { destruct (List.find _ (children_of w p)) as [c|] eqn:Ef; [|done].
    apply List.find_some in Ef as [Hin Heq]. apply String.eqb_eq in Heq.
    exfalso. apply Hfresh. apply in_map_iff. exists c. split; [done|done]. }
  unfold id. rewrite find_app_none; [|exact Hnone]. cbn. rewrite !String.eqb_refl. done.
Qed.

(** ** get_children *)

(** X7: StcPort.get_children treats type names case-insensitively: asking
    for [types] behaves exactly as asking for their lower-case forms. *)
Theorem port_get_children_case_insensitive (p : ref) (types : list string) :
  port_get_children remote_children device_port project p types
  = port_get_children remote_children device_port project p (map lower types).
Proof.
  unfold port_get_children. rewrite map_map.
  rewrite (map_ext (fun x => lower (lower x)) lower) by (intros; apply lower_idem).
  reflexivity.
Qed.

Lemma filter_not_ed (l : list string) :
  (forall t, In t l -> lower t = "emulateddevice") ->
  List.filter (fun t => negb (String.eqb t "emulateddevice")) (map lower l) = [].
Proof.
  induction l as [|t l IH]; intros Hed; cbn; [done|].
  rewrite (Hed t (or_introl eq_refl)). cbn.
  apply IH. intros x Hx. apply Hed. by right.
Qed.

(** X8: once the project's index holds an emulated device, a request on a
    port for emulated devices only (in any spelling, possibly repeated)
    makes no remote call and changes nothing: it returns the devices indexed
    under the port.  A request with no type at all returns an empty list,
    also without any remote call. *)
Theorem port_get_children_cached (p : ref) (types : list string) (w : world)
  (Hidx : device_index w project <> [])
  (Hed : forall t, In t types -> lower t = "emulateddevice")
  (Hnn : types <> []) :
  port_get_children remote_children device_port project p types w
    = (Ok (device_index w p), w) /\
  port_get_children remote_children device_port project p [] w = (Ok [], w).
Proof.
  split; [|done].
  destruct types as [|t ts]; [done|].
  unfold port_get_children. cbn zeta.
  assert (He : existsb (String.eqb "emulateddevice") (map lower (t :: ts)) = true).
  { cbn. rewrite (Hed t (or_introl eq_refl)). done. }
  rewrite He, (filter_not_ed _ Hed).
  unfold mbind, M_bind, ensure_project_devices, mbind, M_bind.
  rewrite get_objects_by_type_ed.
  destruct (device_index w project) eqn:E; [done|].
  cbn. reflexivity.
Qed.

End Lifecycle_proofs.

(** * Runs of the lifecycle properties on the concrete session *)

Lemma wait_for_states_no_budget_witness :
  wait_for_states demo_remote "p1" None ["UP"] bound_world
    = (Err TypeError_None, bound_world) /\
  wait_for_states demo_remote "p1" (Some (-3)%Z) ["UP"] bound_world
    = (Err (UnboundLocalError "link_state"), bound_world).
Proof.
  destruct (wait_for_states_no_budget demo_remote "p1" ["UP"] bound_world) as [H1 H2].
  split; [exact H1|]. apply H2. lia.
Defined.

Lemma reserve_without_budget_fails_after_attach_witness :
  exists w1,
    reserve demo_remote demo_attr_names demo_local_host "p1" (Some "10.0.0.1/1/1")
      false true (Some 0%Z) empty_world = (Err (UnboundLocalError "link_state"), w1) /\
    w_activephy w1 !! "p1" = Some "phy1".
Proof.
  assert (Hres : resolution demo_remote "p1" (Some "10.0.0.1/1/1") empty_world
                   "10.0.0.1/1/1" [EvConfig "p1" [("location", "10.0.0.1/1/1")]]).
  { left. exists "10.0.0.1/1/1". split; [reflexivity|]. split; [discriminate|].
    split; reflexivity. }
  destruct (reserve_without_budget_fails_after_attach demo_remote demo_attr_names
              demo_local_host "p1" (Some "10.0.0.1/1/1") false empty_world
              "10.0.0.1/1/1" [EvConfig "p1" [("location", "10.0.0.1/1/1")]]
              Hres eq_refl) as (w1 & _ & Hphy & _ & H0).
  exists w1. split; [apply H0; lia|exact Hphy].
Defined.

(** The link of phy1 is DOWN at the first poll and UP at the second: the
    reservation completes after two polls and the port is then online. *)
Lemma reserve_then_online_witness :
  exists w2,
    reserve demo_remote demo_attr_names demo_local_host "p1" (Some "10.0.0.1/1/1")
      false true (Some 5%Z) empty_world = (Ok tt, w2) /\
    w_clock w2 = 1%nat /\
    fst (is_online demo_remote "p1" w2) = Ok true.
Proof.
  assert (Hres : resolution demo_remote "p1" (Some "10.0.0.1/1/1") empty_world
                   "10.0.0.1/1/1" [EvConfig "p1" [("location", "10.0.0.1/1/1")]]).
  { left. exists "10.0.0.1/1/1". split; [reflexivity|]. split; [discriminate|].
    split; reflexivity. }
  destruct (reserve_then_online demo_remote demo_attr_names demo_local_host "p1"
              (Some "10.0.0.1/1/1") false 5%Z empty_world "10.0.0.1/1/1"
              [EvConfig "p1" [("location", "10.0.0.1/1/1")]] "phy1" 2%nat
              Hres eq_refl eq_refl ltac:(lia) ltac:(vm_compute; lia))
    as (w2 & H1 & _ & H3 & H4).
  - intros i Hi. replace i with 1%nat by lia. vm_compute. discriminate.
  - vm_compute. reflexivity.
  - exists w2. split; [exact H1|]. split; [exact H3|exact H4].
Defined.

Lemma reserve_then_release_witness :
  let w1 := snd (reserve demo_remote demo_attr_names demo_local_host "p1"
                   (Some "10.0.0.1/1/1") false false None empty_world) in
  release demo_local_host (Ok false) "p1" w1
  = (Ok tt, log_ev (EvPerform "ReleasePort" [("portList", VStr "p1")]) w1).
Proof.
  assert (Hres : resolution demo_remote "p1" (Some "10.0.0.1/1/1") empty_world
                   "10.0.0.1/1/1" [EvConfig "p1" [("location", "10.0.0.1/1/1")]]).
  { left. exists "10.0.0.1/1/1". split; [reflexivity|]. split; [discriminate|].
    split; reflexivity. }
  destruct (reserve_then_release demo_remote demo_attr_names demo_local_host (Ok false)
              "p1" (Some "10.0.0.1/1/1") false false None empty_world
              (snd (reserve demo_remote demo_attr_names demo_local_host "p1"
                      (Some "10.0.0.1/1/1") false false None empty_world))
              "10.0.0.1/1/1" [EvConfig "p1" [("location", "10.0.0.1/1/1")]]
              Hres eq_refl) as [H _].
  exact H.
Defined.

Lemma set_media_type_unbound_or_same_witness :
  set_media_type (fun _ => "EthernetCopper") "p1" "EthernetFiber" empty_world
    = (Err (AttributeError_None "obj_type"), empty_world) /\
  set_media_type (fun _ => "EthernetCopper") "p1" "EthernetCopper" bound_world
    = (Ok tt, bound_world).
Proof.
  destruct (set_media_type_unbound_or_same (fun _ => "EthernetCopper") "p1"
              "EthernetFiber" empty_world) as [H1 _].
  destruct (set_media_type_unbound_or_same (fun _ => "EthernetCopper") "p1"
              "EthernetCopper" bound_world) as [_ H2].
  split; [apply H1; reflexivity|]. apply (H2 "phy1"); reflexivity.
Defined.

Lemma set_media_type_switch_witness :
  exists w1,
    set_media_type (fun _ => "EthernetCopper") "p1" "EthernetFiber" bound_world
      = (Ok tt, w1) /\
    w_activephy w1 !! "p1"
      = Some ("EthernetFiber" +:+ pretty (N.of_nat (w_fresh bound_world))) /\
    set_media_type (fun _ => "EthernetCopper") "p1" "EthernetFiber" w1 = (Ok tt, w1).
Proof.
  destruct (set_media_type_switch demo_remote (fun _ => "EthernetCopper") "p1"
              "EthernetFiber" bound_world "phy1" eq_refl
              ltac:(vm_compute; discriminate) ltac:(vm_compute; tauto))
    as (w1 & H1 & _ & _ & _ & H5 & H6).
  exists w1. split; [exact H1|]. split; [exact H5|exact H6].
Defined.

Lemma port_get_children_cached_witness :
  port_get_children demo_children demo_device_port "proj" "p1"
    ["EmulatedDevice"; "emulateddevice"] indexed_world = (Ok ["d1"], indexed_world).
Proof.
  destruct (port_get_children_cached demo_children demo_device_port "proj" "p1"
              ["EmulatedDevice"; "emulateddevice"] indexed_world
              ltac:(vm_compute; discriminate)
              ltac:(intros t [<- | [<- | []]]; reflexivity)
              ltac:(discriminate)) as [H _].
  exact H.
Defined.
